(** * EVE (Ensemble Variant Detection): the command-line driver [eve.py]

    A shallow embedding of [src/eve.py] and of the part of the Python
    runtime it touches (strings, [os.path], [os.makedirs], [datetime],
    [logging], [platform], [argparse]), followed by the properties of the
    driver.  The Merge Engine described by the specification has no code in
    [eve.py]; it is modelled from the specification in [Module MergeEngine]. *)

From Stdlib Require Import ZArith Ascii String DecimalString Lia ZifyNat QArith Qcanon.
From stdpp Require Import base option numbers countable list strings gmap sorting.

Local Open Scope Z_scope.
Local Open Scope nat_scope.

(** ** Python strings *)

Module Str.

(** [s.startswith(p)]. *)
Fixpoint startswith (s p : string) {struct p} : bool :=
  match p, s with
  | EmptyString, _ => true
  | String _ _, EmptyString => false
  | String b p', String a s' => if decide (a = b) then startswith s' p' else false
  end.

(** [s.endswith(p)]. *)
Definition endswith (s p : string) : bool :=
  startswith (String.rev s) (String.rev p).

(** [s.split(sep)] for a one-character separator: the pieces between the
    separators, empty pieces included; the empty string yields one empty
    piece. *)
Fixpoint split (sep : ascii) (s : string) : list string :=
  match s with
  | EmptyString => [EmptyString]
  | String c s' =>
      if decide (c = sep) then EmptyString :: split sep s'
      else match split sep s' with
           | piece :: rest => String c piece :: rest
           | [] => [String c EmptyString]
           end
  end.

(** [sep.join(l)]. *)
Fixpoint join (sep : string) (l : list string) : string :=
  match l with
  | [] => ""
  | [x] => x
  | x :: rest => x +:+ sep +:+ join sep rest
  end.

(** [s.rstrip(c)] for one character [c], on the reversed string. *)
Fixpoint lstrip_char (c : ascii) (s : string) : string :=
  match s with
  | String a s' => if decide (a = c) then lstrip_char c s' else s
  | EmptyString => EmptyString
  end.

Definition rstrip_char (c : ascii) (s : string) : string :=
  String.rev (lstrip_char c (String.rev s)).

(** The decimal digit of [n mod 10]. *)
Definition digit (n : nat) : ascii :=
  match n mod 10 with
  | 0 => "0" | 1 => "1" | 2 => "2" | 3 => "3" | 4 => "4"
  | 5 => "5" | 6 => "6" | 7 => "7" | 8 => "8" | _ => "9"
  end%char.

(** ['%02d' % n] and ['%04d' % n] for [n] within the width. *)
Definition pad2 (n : nat) : string :=
  String (digit (n / 10)) (String (digit n) "").

Definition pad4 (n : nat) : string :=
  String (digit (n / 1000)) (String (digit (n / 100)) (pad2 n)).

End Str.

(** ** [posixpath] *)

Module os_path.

Definition sep : ascii := "/"%char.

(** [os.path.join(a, *p)]: a component that starts with the separator
    discards everything before it; otherwise components are glued with one
    separator unless the path so far is empty or already ends with one. *)
Definition join2 (path b : string) : string :=
  if Str.startswith b "/" then b
  else if decide (path = "") then b
  else if Str.endswith path "/" then path +:+ b
  else path +:+ "/" +:+ b.

Definition join (a : string) (p : list string) : string :=
  foldl join2 a p.

(** [os.path.split(p)]: the part up to the last separator (trailing
    separators removed unless it consists of separators only) and the part
    after it. *)
Fixpoint split_rev (r acc : string) : string * string :=
  match r with
  | EmptyString => (EmptyString, acc)
  | String c r' => if decide (c = sep) then (r, acc) else split_rev r' (String c acc)
  end.

Definition split (p : string) : string * string :=
  let '(rhead, tail) := split_rev (String.rev p) "" in
  let head := String.rev rhead in
  let stripped := Str.rstrip_char sep head in
  (if decide (stripped = "") then head else stripped, tail).

End os_path.

(** ** The interpreter: exceptions, the process state, and computations *)

(** A raised exception: an instance of the class named [cls] carrying a
    message, or [SystemExit(code)].  ([IOError] is kept under the name the
    source raises it by.) *)
Inductive Exception :=
  | PyError (cls msg : string)
  | SystemExit (code : Z).

Definition exc_class (e : Exception) : string :=
  match e with
  | PyError cls _ => cls
  | SystemExit _ => "SystemExit"
  end.

#[global] Instance Exception_eq_dec : EqDecision Exception.
Proof. solve_decision. Defined.

Inductive Outcome (A : Type) :=
  | Return (a : A)
  | Raise (e : Exception).
Arguments Return {A} a.
Arguments Raise {A} e.

(** An entry of the file system. *)
Inductive FileKind := RegularFile | Directory.

#[global] Instance FileKind_eq_dec : EqDecision FileKind.
Proof. solve_decision. Defined.

(** [datetime.datetime]: a naive timestamp. *)
Record datetime := {
  year : nat; month : nat; day : nat;
  hour : nat; minute : nat; second : nat; microsecond : N
}.

#[global] Instance datetime_eq_dec : EqDecision datetime.
Proof. solve_decision. Defined.

(** What the [platform] module and the import system report. *)
Record Platform := {
  system : string;
  processor : string;
  release : string;
  version : string;
  (** [platform.linux_distribution()]; [None] when the interpreter's
      [platform] module has no such function. *)
  linux_distribution : option (list string);
  (** [platform.mac_ver()[0]] *)
  mac_ver : string;
  (** [platform.architecture()[0]] *)
  architecture : string;
  python_version : string;
  (** the importable modules that carry a [__version__], with its value *)
  module_version : gmap string string
}.

(** The logging levels the driver uses. *)
Inductive Level := DEBUG | INFO.

(** The command line as [argparse] reads it off [sys.argv]: the positional
    arguments and the value given to each option, [None] when the option is
    not on the command line.  Command lines with [-h], with an option the
    parser does not know or with positional arguments in more than one
    group are not represented. *)
Record CommandLine := {
  arg_input_reads : list string;
  opt_output : option string;
  opt_fasta : option string;
  opt_gff : option string;
  opt_mapper : option string;
  opt_variant_detectors : option string;
  opt_working_directory : option string
}.

(** The state of the process and of its environment.
    - [fs]: the entries of the file system, by path as written;
    - [utc], [utc_reads]: the successive readings of the UTC clock and how
      many have been taken;
    - [log_file]: the file of the root logger's file handler, once
      [logging.basicConfig] has installed it;
    - [consoles]: the levels of the stream handlers added to the root logger;
    - [journal]: the records handed to the root logger, latest first. *)
Record World := {
  fs : gmap string FileKind;
  utc : nat → datetime;
  utc_reads : nat;
  platform : Platform;
  sys_argv : CommandLine;
  log_file : option string;
  consoles : list Level;
  journal : list (Level * string)
}.

Definition set_fs (f : gmap string FileKind) (w : World) : World :=
  {| fs := f; utc := utc w; utc_reads := utc_reads w; platform := platform w;
     sys_argv := sys_argv w; log_file := log_file w; consoles := consoles w;
     journal := journal w |}.

(** A computation: it reads and changes the process state, and returns a
    value or raises. *)
Definition Py (A : Type) : Type := World → Outcome A * World.

Definition ret {A} (a : A) : Py A := λ w, (Return a, w).

Definition raise {A} (e : Exception) : Py A := λ w, (Raise e, w).

Definition bind {A B} (m : Py A) (k : A → Py B) : Py B :=
  λ w, match m w with
       | (Return a, w') => k a w'
       | (Raise e, w') => (Raise e, w')
       end.

Declare Scope py_scope.
Delimit Scope py_scope with py.
Notation "x <- m ;; k" := (bind m (λ x, k))
  (at level 100, m at next level, right associativity) : py_scope.
Notation "m ;;; k" := (bind m (λ _, k))
  (at level 100, right associativity) : py_scope.
Local Open Scope py_scope.

(** [try: m  except cls: handler]. *)
Definition try_except {A} (m : Py A) (cls : string) (handler : Py A) : Py A :=
  λ w, match m w with
       | (Raise e, w') =>
           if decide (exc_class e = cls) then handler w' else (Raise e, w')
       | r => r
       end.

Definition get {A} (f : World → A) : Py A := λ w, (Return (f w), w).

(** ** [os.path] predicates and [os.makedirs] *)

Definition exists_ (p : string) : Py bool :=
  get (λ w, bool_decide (is_Some (fs w !! p))).

Definition isfile (p : string) : Py bool :=
  get (λ w, bool_decide (fs w !! p = Some RegularFile)).

Definition isdir (p : string) : Py bool :=
  get (λ w, bool_decide (fs w !! p = Some Directory)).

(** [os.mkdir(name)]: the entry must be new and its parent a directory;
    a relative name with no parent part lies in the current directory. *)
Definition mkdir (name : string) : Py unit := λ w,
  let parent := fst (os_path.split name) in
  match fs w !! name with
  | Some _ => (Raise (PyError "FileExistsError" name), w)
  | None =>
      if decide (parent = "") then (Return (), set_fs (<[name := Directory]> (fs w)) w)
      else match fs w !! parent with
           | Some Directory => (Return (), set_fs (<[name := Directory]> (fs w)) w)
           | Some RegularFile => (Raise (PyError "NotADirectoryError" name), w)
           | None => (Raise (PyError "FileNotFoundError" name), w)
           end
  end.

(** [os.makedirs(name)] (with [exist_ok=False]): creates the missing
    ancestors first, tolerating one that appeared meanwhile, then the leaf.
    [fuel] bounds the recursion on the head of the path; the length of the
    path is enough. *)
Fixpoint makedirs_from (fuel : nat) (name : string) : Py unit :=
  let '(head, tail) := os_path.split name in
  let '(head, tail) :=
    if decide (tail = "") then os_path.split head else (head, tail) in
  known <- exists_ head ;;
  if bool_decide (head ≠ "") && bool_decide (tail ≠ "") && negb known then
    match fuel with
    | 0 => mkdir name
    | S fuel' =>
        try_except (makedirs_from fuel' head) "FileExistsError" (ret ()) ;;;
        if decide (tail = ".") then ret () else mkdir name
    end
  else mkdir name.

Definition makedirs (name : string) : Py unit :=
  makedirs_from (String.length name) name.

(** ** [datetime] *)

(** [datetime.datetime.utcnow()]: the next reading of the clock. *)
Definition utcnow : Py datetime := λ w,
  (Return (utc w (utc_reads w)),
   {| fs := fs w; utc := utc w; utc_reads := S (utc_reads w);
      platform := platform w; sys_argv := sys_argv w; log_file := log_file w;
      consoles := consoles w; journal := journal w |}).

(** [d.strftime('%Y%m%d%H%M%S')] (years of four digits). *)
Definition strftime_compact (d : datetime) : string :=
  Str.pad4 (year d) +:+ Str.pad2 (month d) +:+ Str.pad2 (day d) +:+
  Str.pad2 (hour d) +:+ Str.pad2 (minute d) +:+ Str.pad2 (second d).

(** Day of the week, 0 for Sunday. *)
Definition weekday (d : datetime) : nat :=
  let t := nth (month d - 1) [0; 3; 2; 5; 0; 3; 5; 1; 4; 6; 2; 4] 0 in
  let y := if month d <? 3 then year d - 1 else year d in
  (y + y / 4 - y / 100 + y / 400 + t + day d) mod 7.

Definition day_name (n : nat) : string :=
  nth n ["Sunday"; "Monday"; "Tuesday"; "Wednesday"; "Thursday"; "Friday";
         "Saturday"] "".

Definition month_name (n : nat) : string :=
  nth (n - 1) ["January"; "February"; "March"; "April"; "May"; "June"; "July";
               "August"; "September"; "October"; "November"; "December"] "".

(** [d.strftime("%A, %d. %B %Y %I:%M%p UT")] in the C locale. *)
Definition strftime_long (d : datetime) : string :=
  day_name (weekday d) +:+ ", " +:+ Str.pad2 (day d) +:+ ". " +:+
  month_name (month d) +:+ " " +:+ Str.pad4 (year d) +:+ " " +:+
  Str.pad2 (if hour d mod 12 =? 0 then 12 else hour d mod 12) +:+ ":" +:+
  Str.pad2 (minute d) +:+ (if hour d <? 12 then "AM" else "PM") +:+ " UT".

(** ** [logging] *)

(** [logging.basicConfig(level=logging.DEBUG, format=..., filename=path)]:
    does nothing when the root logger already has a handler; otherwise opens
    [path] for appending (creating it) and installs the file handler. *)
Definition basicConfig (path : string) : Py unit := λ w,
  match log_file w, consoles w with
  | None, [] =>
      let parent := fst (os_path.split path) in
      let opened :=
        (Return (),
         {| fs := <[path := RegularFile]> (fs w); utc := utc w;
            utc_reads := utc_reads w; platform := platform w;
            sys_argv := sys_argv w; log_file := Some path;
            consoles := consoles w; journal := journal w |}) in
      match fs w !! path with
      | Some Directory => (Raise (PyError "IsADirectoryError" path), w)
      | Some RegularFile => opened
      | None =>
          if decide (parent = "") then opened
          else match fs w !! parent with
               | Some Directory => opened
               | Some RegularFile => (Raise (PyError "NotADirectoryError" path), w)
               | None => (Raise (PyError "FileNotFoundError" path), w)
               end
      end
  | _, _ => (Return (), w)
  end.

(** [logging.getLogger('').addHandler(h)] for a stream handler of level [l]. *)
Definition addHandler (l : Level) : Py unit := λ w,
  (Return (),
   {| fs := fs w; utc := utc w; utc_reads := utc_reads w;
      platform := platform w; sys_argv := sys_argv w; log_file := log_file w;
      consoles := l :: consoles w; journal := journal w |}).

(** [logging.log(l, msg)] on the root logger. *)
Definition logging_log (l : Level) (msg : string) : Py unit := λ w,
  (Return (),
   {| fs := fs w; utc := utc w; utc_reads := utc_reads w;
      platform := platform w; sys_argv := sys_argv w; log_file := log_file w;
      consoles := consoles w; journal := (l, msg) :: journal w |}).

Definition logging_info : string → Py unit := logging_log INFO.
Definition logging_debug : string → Py unit := logging_log DEBUG.

(** [from m import __version__]. *)
Definition import_version (m : string) : Py string := λ w,
  match module_version (platform w) !! m with
  | Some v => (Return v, w)
  | None => (Raise (PyError "ImportError" m), w)
  end.

(** [for x in l: body(x)]. *)
Fixpoint for_each {A} (l : list A) (body : A → Py unit) : Py unit :=
  match l with
  | [] => ret ()
  | x :: rest => body x ;;; for_each rest body
  end.

(** ** Objects of the [eve] package *)

(** An instance of a class of the [eve] package ([eve.mappers],
    [eve.detectors]), whose code is not in [eve.py]: the class and the
    arguments its constructor was applied to. *)
Record PyObject := Instance { py_class : string; py_init_args : list string }.

#[global] Instance PyObject_eq_dec : EqDecision PyObject.
Proof. solve_decision. Defined.

(** [mappers.BWAMapper()]. *)
Definition BWAMapper : PyObject := Instance "BWAMapper" [].

(** [detectors.MpileupDetector(bam, fasta, conf, working_dir)]. *)
Definition MpileupDetector (bam fasta conf working_dir : string) : PyObject :=
  Instance "MpileupDetector" [bam; fasta; conf; working_dir].

(** A value a function returns to [sys.exit]. *)
Inductive PyValue := PyNone | PyInt (n : Z) | PyStr (s : string).

(** ** [class EVE] *)

(** The object [argparse] returns.  Its attributes are fixed by the parser's
    [add_argument] calls; [bam] is the one attribute the parser does not
    define, [None] while the object has no such attribute. *)
Record Namespace := {
  input_reads : list string;
  output : option string;
  fasta : string;
  gff : string;
  mapper : string;
  variant_detectors : string;
  working_directory : string;
  bam : option string
}.

(** The attributes of an [EVE] instance; [self_mapper] and [self_bam] are
    [None] while the instance has no such attribute. *)
Record EVE := {
  self_args : Namespace;
  self_working_dir : string;
  self_mapper : option PyObject;
  self_detectors : list PyObject;
  self_bam : option string
}.

(** [parser.parse_args()] for the parser built in [EVE.parse_args]: it reads
    [sys.argv]; [input_reads] takes one or more positional arguments,
    [--fasta] and [--gff] are required, and a command line that does not fit
    ends the process with status 2. *)
Definition ArgumentParser_parse_args : Py Namespace := λ w,
  let cl := sys_argv w in
  match arg_input_reads cl, opt_fasta cl, opt_gff cl with
  | _ :: _, Some f, Some g =>
      (Return {| input_reads := arg_input_reads cl;
                 output := opt_output cl;
                 fasta := f;
                 gff := g;
                 mapper := default "bwa" (opt_mapper cl);
                 variant_detectors :=
                   default "gatk,mpileup,varscan" (opt_variant_detectors cl);
                 working_directory := default "output/" (opt_working_directory cl);
                 bam := None |}, w)
  | _, _, _ => (Raise (SystemExit 2), w)
  end.

(** ['bam' in args]. *)
Definition has_bam (args : Namespace) : bool :=
  match bam args with Some _ => true | None => false end.

(** The error of reading [args.bam] on an object without that attribute. *)
Definition no_attribute_bam : Exception :=
  PyError "AttributeError" "'Namespace' object has no attribute 'bam'".

(** [args.bam]. *)
Definition getattr_bam (args : Namespace) : Py string :=
  match bam args with
  | Some b => ret b
  | None => raise no_attribute_bam
  end.

(** [EVE.parse_args(self, argv)]; [argv] is not used, the parser reads
    [sys.argv]. *)
Definition parse_args (argv : CommandLine) : Py Namespace :=
  args <- ArgumentParser_parse_args ;;
  (* validate input arguments *)
  (if 2 <? length (input_reads args)
   then raise (PyError "IOError" "Too many input arguments specified")
   else ret ()) ;;;
  gff_is_file <- isfile (gff args) ;;
  (if negb gff_is_file
   then raise (PyError "IOError" "Invalid GFF filepath specified")
   else ret ()) ;;;
  (* determine input type (FASTQ or BAM) *)
  match input_reads args with
  | [reads] =>
      if Str.endswith reads ".bam"
      then b <- getattr_bam args ;;
           let _ := bool_decide (b = reads) in ret ()
      else ret ()
  | _ => ret ()
  end ;;;
  ret args.

(** [EVE.create_working_directories(self)]; returns [self.working_dir]. *)
Definition create_working_directories (args : Namespace) : Py string :=
  now <- utcnow ;;
  let now := strftime_compact now in
  let working_dir := os_path.join (working_directory args) [now] in
  for_each ["mapped"; "vcf"] (λ subdir,
    let path := os_path.join working_dir [subdir] in
    present <- isdir path ;;
    if negb present then makedirs path else ret ()) ;;;
  ret working_dir.

(** [EVE.initialize_logger(self)]. *)
Definition initialize_logger (working_dir : string) : Py unit :=
  basicConfig (os_path.join working_dir ["eve.log"]) ;;;
  (* log to console as well *)
  addHandler INFO.

(** [EVE.log_system_info(self)]. *)
Definition log_system_info : Py unit :=
  (* EVE version *)
  eve_version <- import_version "eve" ;;
  logging_info ("Starting EVE " +:+ eve_version) ;;;
  (* Time *)
  now <- utcnow ;;
  logging_info ("Time: " +:+ strftime_long now) ;;;
  (* Platform *)
  p <- get platform ;;
  (if decide (system p = "Linux") then
     match linux_distribution p with
     | Some parts =>
         logging_debug ("OS: " +:+ Str.join " " parts +:+ " (Linux " +:+
                        release p +:+ " " +:+ processor p +:+ ")")
     | None =>
         raise (PyError "AttributeError"
                  "module 'platform' has no attribute 'linux_distribution'")
     end
   else if decide (system p = "Darwin") then
     logging_debug ("OS: Mac OS X " +:+ mac_ver p +:+ " (" +:+ processor p +:+ ")")
   else if decide (system p = "Windows") then
     logging_debug ("OS: Windows " +:+ release p +:+ " " +:+ version p +:+
                    " (" +:+ processor p +:+ ")")
   else
     logging_debug ("Unknown OS (" +:+ processor p +:+ ")")) ;;;
  (* Architecture *)
  logging_debug ("Architecture: " +:+ architecture p) ;;;
  (* Python version *)
  logging_debug ("Python " +:+ python_version p) ;;;
  (* Check python dependencies *)
  numpy_version <-
    try_except (import_version "numpy") "ImportError" (ret "NOT INSTALLED") ;;
  scipy_version <-
    try_except (import_version "scipy") "ImportError" (ret "NOT INSTALLED") ;;
  sklearn_version <-
    try_except (import_version "sklearn") "ImportError" (ret "NOT INSTALLED") ;;
  yaml_version <-
    try_except (import_version "yaml") "ImportError" (ret "NOT INSTALLED") ;;
  logging_debug ("NumPy: " +:+ numpy_version) ;;;
  logging_debug ("SciPy: " +:+ scipy_version) ;;;
  logging_debug ("Scikit-Learn: " +:+ sklearn_version) ;;;
  logging_debug ("PyYAML: " +:+ yaml_version).

(** The configuration file of a detector, lines 35 to 37: the [.yaml] path
    when it exists, else the [.txt] path. *)
Definition detector_conf (detector : string) : Py string :=
  let conf := os_path.join "config" ["detectors"; detector +:+ ".yaml"] in
  found <- exists_ conf ;;
  if negb found
  then ret (os_path.join "config" ["detectors"; detector +:+ ".txt"])
  else ret conf.

(** The loop of [__init__] over the detector names, [loaded] being
    [self.detectors] so far. *)
Fixpoint load_detectors (args : Namespace) (working_dir : string)
    (names : list string) (loaded : list PyObject) : Py (list PyObject) :=
  match names with
  | [] => ret loaded
  | detector :: rest =>
      conf <- detector_conf detector ;;
      loaded <-
        (if decide (detector = "mpileup") then
           b <- getattr_bam args ;;
           ret (loaded ++ [MpileupDetector b (fasta args) conf working_dir])
         else ret loaded) ;;
      load_detectors args working_dir rest loaded
  end.

(** The mapper [__init__] loads, lines 25 to 27: [self.mapper] after
    [if 'bam' in self.args: self.mapper = mappers.BWAMapper()]. *)
Definition load_mapper (args : Namespace) : option PyObject :=
  if has_bam args then Some BWAMapper else None.

(** [EVE.__init__(self, argv)]. *)
Definition __init__ (argv : CommandLine) : Py EVE :=
  (* parse arguments *)
  args <- parse_args argv ;;
  (* create working directories *)
  working_dir <- create_working_directories args ;;
  (* initialize logger *)
  initialize_logger working_dir ;;;
  log_system_info ;;;
  (* load mapper *)
  let mapper := load_mapper args in
  (* load detectors *)
  detectors <-
    load_detectors args working_dir (Str.split "," (variant_detectors args)) [] ;;
  ret {| self_args := args; self_working_dir := working_dir;
         self_mapper := mapper; self_detectors := detectors;
         self_bam := None |}.

Section Run.

(** [mapper.run(input_reads)] of the [eve.mappers] module, whose code is not
    in [eve.py]: any computation returning the path of the alignment. *)
Variable mapper_run : PyObject → list string → Py string.

(** [EVE.run(self)]: the instance after the call and the value returned. *)
Definition run (self : EVE) : Py (EVE * PyValue) :=
  (* map reads *)
  self <-
    (if has_bam (self_args self) then
       logging_info "Mapping reads" ;;;
       match self_mapper self with
       | Some m =>
           b <- mapper_run m (input_reads (self_args self)) ;;
           ret {| self_args := self_args self;
                  self_working_dir := self_working_dir self;
                  self_mapper := self_mapper self;
                  self_detectors := self_detectors self;
                  self_bam := Some b |}
       | None =>
           raise (PyError "AttributeError" "'EVE' object has no attribute 'mapper'")
       end
     else ret self) ;;
  (* run variant detectors; normalize their output; run classifier; output
     final VCF: no statement in the source *)
  ret (self, PyNone).

(** [sys.exit(v)]. *)
Definition sys_exit {A} (v : PyValue) : Py A :=
  raise (SystemExit match v with PyNone => 0 | PyInt n => n | PyStr _ => 1 end).

(** The exit status of the process for an exception nothing caught. *)
Definition exit_status (e : Exception) : Z :=
  match e with
  | SystemExit code => code
  | PyError _ _ => 1
  end.

(** The script, [if __name__ == '__main__']: the exit status of the process
    and the state it leaves. *)
Definition main (w : World) : Z * World :=
  match (app <- __init__ (sys_argv w) ;;
         r <- run app ;;
         sys_exit (A := unit) (snd r)) w with
  | (Return _, w') => (0%Z, w')
  | (Raise e, w') => (exit_status e, w')
  end.

End Run.

(** ** The Merge Engine of the specification

    [eve.py] stops after the mapping step: [EVE.run] has no statement for
    running the detectors, merging their calls, scoring or writing.  The
    definitions of this module follow sections 3, 4.3, 4.4 and 4.5 of the
    specification instead. *)

Module MergeEngine.

(** Modelled from the spec: the Call Record (section 3), for which [eve.py]
    has no class: contig, 1-based position, reference allele, the ordered
    alternate alleles, the detector that made the call, its confidence, and
    the detector-specific evidence. *)
Record CallRecord := {
  chromosome : string;
  position : positive;
  reference : string;
  alternates : list string;
  detector : string;
  confidence : Qc;
  evidence : gmap string string
}.

#[global] Instance CallRecord_eq_dec : EqDecision CallRecord.
Proof. solve_decision. Defined.

#[global] Instance CallRecord_countable : Countable CallRecord.
Proof.
  refine (inj_countable'
    (λ r, (chromosome r, position r, reference r, alternates r, detector r,
           confidence r, evidence r))
    (λ t, let '(c, p, r, a, d, q, e) := t in
          {| chromosome := c; position := p; reference := r; alternates := a;
             detector := d; confidence := q; evidence := e |}) _).
  by intros [].
Defined.

(** Modelled from the spec: the Detector Run Result (section 3), absent from
    [eve.py]: the Call Records of a detector that succeeded, or a failure
    marker with the detector and a reason. *)
Inductive DetectorRunResult :=
  | Success (records : list CallRecord)
  | Failure (failed : string) (reason : string).

(** Modelled from the spec: whether a Detector Run Result is a success
    (section 3); [eve.py] has no such type. *)
Definition is_success (r : DetectorRunResult) : Prop :=
  match r with Success _ => True | Failure _ _ => False end.

(** Modelled from the spec: the Call Records a Detector Run Result
    contributes (section 3: a failure marker contributes none); absent from
    [eve.py]. *)
Definition records_of (r : DetectorRunResult) : list CallRecord :=
  match r with Success records => records | Failure _ _ => [] end.

(** Modelled from the spec: all successful Call Records from all detectors
    (section 4.3, first step of the algorithm); absent from [eve.py]. *)
Definition call_records (results : list DetectorRunResult) : list CallRecord :=
  results ≫= records_of.

(** Modelled from the spec: the key of a Candidate Site, (chromosome,
    position, reference allele) (section 3); absent from [eve.py]. *)
Definition Locus : Type := string * positive * string.

(** Modelled from the spec: the site a Call Record belongs to (section 3);
    absent from [eve.py]. *)
Definition locus (r : CallRecord) : Locus :=
  (chromosome r, position r, reference r).

(** Modelled from the spec: the Candidate Site (section 3), absent from
    [eve.py]: its key and, per alternate allele observed, the set of
    Call Records that support it. *)
Record CandidateSite := {
  site_locus : Locus;
  support : gmap string (gset CallRecord)
}.

#[global] Instance CandidateSite_eq_dec : EqDecision CandidateSite.
Proof. solve_decision. Defined.

(** Modelled from the spec: the grouping of section 4.3, absent from
    [eve.py]: the record [r] is added to the group of [(locus r, alt)],
    the groups of one locus being kept together under that locus. *)
Definition add_support (r : CallRecord)
    (sites : gmap Locus (gmap string (gset CallRecord))) (alt : string)
    : gmap Locus (gmap string (gset CallRecord)) :=
  let site := default ∅ (sites !! locus r) in
  <[locus r := <[alt := {[r]} ∪ default ∅ (site !! alt)]> site]> sites.

(** Modelled from the spec: one Call Record supports each of its alternate
    alleles (sections 3 and 4.3); absent from [eve.py]. *)
Definition add_record (sites : gmap Locus (gmap string (gset CallRecord)))
    (r : CallRecord) : gmap Locus (gmap string (gset CallRecord)) :=
  foldl (add_support r) sites (alternates r).

(** Modelled from the spec: the mapping from (chromosome, position,
    reference allele) to the site's supported alternate alleles, built by
    iterating over all successful Call Records (section 4.3); absent from
    [eve.py]. *)
Definition group (results : list DetectorRunResult)
    : gmap Locus (gmap string (gset CallRecord)) :=
  foldl add_record ∅ (call_records results).

(** Modelled from the spec: the Call Records supporting alternate allele
    [alt] at locus [l] in a grouping, if that call is present (section 4.3);
    absent from [eve.py]. *)
Definition supporters (sites : gmap Locus (gmap string (gset CallRecord)))
    (l : Locus) (alt : string) : option (gset CallRecord) :=
  sites !! l ≫= λ site, site !! alt.

(** Modelled from the spec: the value of a numeric chromosome name
    (section 4.3), [None] for a name that is not a nonempty run of decimal
    digits; absent from [eve.py]. *)
Fixpoint digits_value (acc : N) (s : string) : option N :=
  match s with
  | EmptyString => Some acc
  | String c s' =>
      match Ascii.is_nat c with
      | Some d => digits_value (10 * acc + N.of_nat d)%N s'
      | None => None
      end
  end.

(** Modelled from the spec: see [digits_value]; absent from [eve.py]. *)
Definition numeric_name (s : string) : option N :=
  if decide (s = "") then None else digits_value 0 s.

(** Modelled from the spec: the chromosome-name ordering of section 4.3,
    absent from [eve.py]: numeric names in numeric order, the others
    lexicographically.  The specification does not say how a numeric name
    compares with another one of the same value or with a name that is not
    numeric; here equal values fall back to the lexicographic order and
    numeric names come first. *)
Definition natural_le (c1 c2 : string) : Prop :=
  match numeric_name c1, numeric_name c2 with
  | Some n1, Some n2 => (n1 < n2)%N ∨ (n1 = n2 ∧ (c1 ≤ c2)%string)
  | Some _, None => True
  | None, Some _ => False
  | None, None => (c1 ≤ c2)%string
  end.

#[global] Instance natural_le_dec : RelDecision natural_le.
Proof.
  intros c1 c2. unfold natural_le.
  destruct (numeric_name c1), (numeric_name c2); apply _.
Defined.

Section Pipeline.

(** The chromosome-name ordering in use, the black-box classifier of the
    Ensemble Scorer (confidence and acceptance of a site) and the Output
    Writer's rendering of one accepted site with its score. *)
Context (chromosome_le : string → string → Prop)
        `{!RelDecision chromosome_le}
        (score : CandidateSite → Qc * bool)
        (render : CandidateSite → Qc → string).

(** Modelled from the spec: the output order of section 4.3, absent from
    [eve.py]: ascending chromosome, then position, then reference allele
    lexicographically. *)
Definition locus_le (l1 l2 : Locus) : Prop :=
  let '(c1, p1, r1) := l1 in
  let '(c2, p2, r2) := l2 in
  if decide (c1 = c2) then
    (p1 < p2)%positive ∨ (p1 = p2 ∧ (r1 ≤ r2)%string)
  else chromosome_le c1 c2.

#[local] Instance locus_le_dec : RelDecision locus_le.
Proof.
  intros [[c1 p1] r1] [[c2 p2] r2]. unfold locus_le.
  destruct (decide (c1 = c2)); apply _.
Defined.

(** Modelled from the spec: see [locus_le]; absent from [eve.py]. *)
Definition site_le (s1 s2 : CandidateSite) : Prop :=
  locus_le (site_locus s1) (site_locus s2).

#[local] Instance site_le_dec : RelDecision site_le.
Proof. intros s1 s2. unfold site_le. apply _. Defined.

(** Modelled from the spec: the Merge Engine's [merge] (section 4.3),
    absent from [eve.py]: one Candidate Site per locus of the grouping,
    produced in the output order. *)
Definition merge (results : list DetectorRunResult) : list CandidateSite :=
  merge_sort site_le
    ((λ e, {| site_locus := e.1; support := e.2 |}) <$> map_to_list (group results)).

(** Modelled from the spec: the final output (sections 4.4, 4.5 and 6),
    absent from [eve.py]: the accepted sites, in the Merge Engine's order,
    each rendered with its score. *)
Definition final_output (results : list DetectorRunResult) : string :=
  foldr String.append ""
    ((λ s, render s (score s).1) <$>
       filter (λ s, (score s).2 = true) (merge results)).

End Pipeline.

(** Modelled from the spec: the (chromosome, position, reference, alternate)
    tuples of a list of Candidate Sites (section 8); absent from [eve.py]. *)
Definition output_calls (sites : list CandidateSite) : list (Locus * string) :=
  sites ≫= λ s, (λ e, (site_locus s, e.1)) <$> map_to_list (support s).

(** Modelled from the spec: the detectors a list of Candidate Sites names
    in support of alternate allele [alt] at locus [l] (sections 3 and 8);
    absent from [eve.py]. *)
Definition supporting_detectors (sites : list CandidateSite)
    (l : Locus) (alt : string) : gset string :=
  ⋃ ((λ s, if decide (site_locus s = l)
           then set_map detector (default ∅ (support s !! alt))
           else ∅) <$> sites).

End MergeEngine.

(** ** Notions used in the statements *)

(** The [Namespace] with [args.mapper = v]. *)
Definition with_mapper (v : string) (args : Namespace) : Namespace :=
  {| input_reads := input_reads args; output := output args;
     fasta := fasta args; gff := gff args; mapper := v;
     variant_detectors := variant_detectors args;
     working_directory := working_directory args; bam := bam args |}.

(** The next reading of the clock. *)
Definition now (w : World) : datetime := utc w (utc_reads w).

(** A timestamp as [datetime] keeps it, with a year of four digits. *)
Definition well_formed (d : datetime) : Prop :=
  1000 ≤ year d < 10 * 1000 ∧ 1 ≤ month d ≤ 12 ∧ 1 ≤ day d ≤ 31 ∧
  hour d < 24 ∧ minute d < 60 ∧ second d < 60 ∧ (microsecond d < 1000000)%N.

(** Two timestamps agree down to the second. *)
Definition same_second (d1 d2 : datetime) : Prop :=
  year d1 = year d2 ∧ month d1 = month d2 ∧ day d1 = day d2 ∧
  hour d1 = hour d2 ∧ minute d1 = minute d2 ∧ second d1 = second d2.

(** [raises_only classes m]: whatever [m] raises is of one of [classes]. *)
Definition raises_only {A} (classes : list string) (m : Py A) : Prop :=
  ∀ w e w', m w = (Raise e, w') → exc_class e ∈ classes.

(** [preserves P m]: [m] takes a state to one related to it by [P]. *)
Definition preserves {A} (P : World → World → Prop) (m : Py A) : Prop :=
  ∀ w r w', m w = (r, w') → P w w'.

(** The classes of the exceptions [__init__] can end with. *)
Definition init_errors : list string :=
  ["SystemExit"; "IOError"; "AttributeError"; "FileExistsError";
   "NotADirectoryError"; "FileNotFoundError"; "IsADirectoryError";
   "ImportError"].

(** No regular file appears between two states. *)
Definition files_kept (w w' : World) : Prop :=
  ∀ p, fs w' !! p = Some RegularFile → fs w !! p = Some RegularFile.

(** No regular file appears between two states, except possibly [path]. *)
Definition files_kept_but (path : string) (w w' : World) : Prop :=
  ∀ p, fs w' !! p = Some RegularFile → fs w !! p = Some RegularFile ∨ p = path.

(** The file system is the same in two states. *)
Definition fs_kept (w w' : World) : Prop := fs w' = fs w.

(** ** Sample inputs *)

Definition sample_time : datetime :=
  {| year := 2014; month := 5; day := 17;
     hour := 13; minute := 45; second := 9; microsecond := 0 |}.

Definition sample_time_later : datetime :=
  {| year := 2014; month := 5; day := 17;
     hour := 13; minute := 45; second := 9; microsecond := 750000 |}.

Definition sample_platform : Platform :=
  {| system := "Linux"; processor := "x86_64"; release := "3.13.0";
     version := "#1 SMP"; linux_distribution := Some ["Ubuntu"; "14.04"; "trusty"];
     mac_ver := ""; architecture := "64bit"; python_version := "3.4.0";
     module_version := {[ "eve" := "0.1"; "numpy" := "1.8.1" ]} |}.

(** A fresh process started with command line [cl] at [sample_time], in a
    directory that holds the annotation [genes.gff] and nothing else. *)
Definition sample_world (cl : CommandLine) : World :=
  {| fs := {[ "genes.gff" := RegularFile ]};
     utc := λ _, sample_time; utc_reads := 0;
     platform := sample_platform; sys_argv := cl;
     log_file := None; consoles := []; journal := [] |}.

(** [eve.py a_1.fastq a_2.fastq -f genome.fa -g genes.gff -o final.vcf
    -d gatk,varscan] *)
Definition fastq_cl : CommandLine :=
  {| arg_input_reads := ["a_1.fastq"; "a_2.fastq"];
     opt_output := Some "final.vcf"; opt_fasta := Some "genome.fa";
     opt_gff := Some "genes.gff"; opt_mapper := None;
     opt_variant_detectors := Some "gatk,varscan";
     opt_working_directory := None |}.

(** [eve.py a_1.fastq a_2.fastq -f genome.fa -g genes.gff]: the default
    detectors, ["gatk,mpileup,varscan"]. *)
Definition default_cl : CommandLine :=
  {| arg_input_reads := ["a_1.fastq"; "a_2.fastq"];
     opt_output := None; opt_fasta := Some "genome.fa";
     opt_gff := Some "genes.gff"; opt_mapper := None;
     opt_variant_detectors := None; opt_working_directory := None |}.

(** [eve.py a_1.fastq a_2.fastq -f genome.fa -g genes.gff -d nosuchdetector]. *)
Definition unknown_detector_cl : CommandLine :=
  {| arg_input_reads := ["a_1.fastq"; "a_2.fastq"];
     opt_output := None; opt_fasta := Some "genome.fa";
     opt_gff := Some "genes.gff"; opt_mapper := None;
     opt_variant_detectors := Some "nosuchdetector";
     opt_working_directory := None |}.

(** [eve.py aln.bam -f genome.fa -g GFF]. *)
Definition bam_cl (gff_path : string) : CommandLine :=
  {| arg_input_reads := ["aln.bam"];
     opt_output := None; opt_fasta := Some "genome.fa";
     opt_gff := Some gff_path; opt_mapper := None;
     opt_variant_detectors := None; opt_working_directory := None |}.

(** [eve.py a.fastq b.fastq c.fastq -f genome.fa -g genes.gff]. *)
Definition three_reads_cl : CommandLine :=
  {| arg_input_reads := ["a.fastq"; "b.fastq"; "c.fastq"];
     opt_output := None; opt_fasta := Some "genome.fa";
     opt_gff := Some "genes.gff"; opt_mapper := None;
     opt_variant_detectors := None; opt_working_directory := None |}.

(** [eve.py a.fastq b.fastq c.fastq -g genes.gff]: three inputs and no
    [--fasta]. *)
Definition three_reads_no_fasta_cl : CommandLine :=
  {| arg_input_reads := ["a.fastq"; "b.fastq"; "c.fastq"];
     opt_output := None; opt_fasta := None;
     opt_gff := Some "genes.gff"; opt_mapper := None;
     opt_variant_detectors := None; opt_working_directory := None |}.

(** The [Namespace] the parser builds from [fastq_cl]. *)
Definition fastq_args : Namespace :=
  {| input_reads := ["a_1.fastq"; "a_2.fastq"]; output := Some "final.vcf";
     fasta := "genome.fa"; gff := "genes.gff"; mapper := "bwa";
     variant_detectors := "gatk,varscan"; working_directory := "output/";
     bam := None |}.

(** A [Namespace] that has a [bam] attribute, as the detector loop and
    [run] expect of an alignment input. *)
Definition args_with_bam : Namespace :=
  {| input_reads := ["aln.bam"]; output := None;
     fasta := "genome.fa"; gff := "genes.gff"; mapper := "bowtie2";
     variant_detectors := "gatk,mpileup,varscan"; working_directory := "output/";
     bam := Some "aln.bam" |}.

(** The instance [__init__] builds from [fastq_cl] at [sample_time]. *)
Definition fastq_app : EVE :=
  {| self_args := fastq_args; self_working_dir := "output/20140517134509";
     self_mapper := None; self_detectors := []; self_bam := None |}.

(** A mapper's [run] that returns a fixed path. *)
Definition sample_mapper_run (m : PyObject) (reads : list string) : Py string :=
  ret "aln.bam".

(** A second process for the same command line, started three quarters of a
    second after [sample_world cl] in the file system that first run's
    [__init__] left behind. *)
Definition second_world (cl : CommandLine) : World :=
  {| fs := fs (__init__ cl (sample_world cl)).2;
     utc := λ _, sample_time_later; utc_reads := 0;
     platform := sample_platform; sys_argv := cl;
     log_file := None; consoles := []; journal := [] |}.

(** ** Notions used in the statements about the Merge Engine *)

(** The Call Records a grouping holds for alternate allele [alt] at locus
    [l], none if the call is absent. *)
Definition support_set
    (sites : gmap MergeEngine.Locus (gmap string (gset MergeEngine.CallRecord)))
    (l : MergeEngine.Locus) (alt : string) : gset MergeEngine.CallRecord :=
  default ∅ (MergeEngine.supporters sites l alt).

(** A grouping that keeps no site without an alternate allele and no
    alternate allele without a supporting record. *)
Definition tidy
    (sites : gmap MergeEngine.Locus (gmap string (gset MergeEngine.CallRecord)))
    : Prop :=
  ∀ l site, sites !! l = Some site →
    site ≠ ∅ ∧ ∀ alt s, site !! alt = Some s → s ≠ ∅.

(** The example of section 8 of the specification: detector A reports
    (chr1, 100, A, T) with confidence 0.9; detector B reports
    (chr1, 100, A, T) with 0.7 and (chr1, 200, G, C) with 0.8. *)
Definition call (c : string) (p : positive) (r a d : string) (q : Q)
    : MergeEngine.CallRecord :=
  {| MergeEngine.chromosome := c; MergeEngine.position := p;
     MergeEngine.reference := r; MergeEngine.alternates := [a];
     MergeEngine.detector := d; MergeEngine.confidence := Q2Qc q;
     MergeEngine.evidence := ∅ |}.

Definition result_A : MergeEngine.DetectorRunResult :=
  MergeEngine.Success [call "chr1" 100 "A" "T" "A" (9 # 10)].

Definition result_B : MergeEngine.DetectorRunResult :=
  MergeEngine.Success [call "chr1" 100 "A" "T" "B" (7 # 10);
                       call "chr1" 200 "G" "C" "B" (8 # 10)].

(** The classifier of that example: a site is accepted when two detectors
    support one of its alleles or one call reaches confidence 0.85; the score
    is the largest confidence. *)
Definition example_score (s : MergeEngine.CandidateSite) : Qc * bool :=
  let calls := map_to_list (MergeEngine.support s) ≫= λ e, elements e.2 in
  let best := foldr (λ r q, if decide (q ≤ MergeEngine.confidence r)%Qc
                            then MergeEngine.confidence r else q) 0%Qc calls in
  (best,
   bool_decide (2 ≤ length (remove_dups (MergeEngine.detector <$> calls)))
   || bool_decide (Q2Qc (85 # 100) ≤ best)%Qc).

(** A rendering of an accepted site on one line: chromosome, position,
    reference allele, the accepted alternate alleles and nothing of the
    score. *)
Definition example_render (s : MergeEngine.CandidateSite) (score : Qc) : string :=
  let '(c, p, r) := MergeEngine.site_locus s in
  c +:+ ":" +:+ NilEmpty.string_of_uint (Pos.to_uint p) +:+ " " +:+ r +:+ ">" +:+
  Str.join "," (map_to_list (MergeEngine.support s)).*1 +:+
  String "010"%char "".

(** ** Further notions used in the statements *)

(** Every entry of the file system is still there, of the same kind. *)
Definition entries_kept (w w' : World) : Prop :=
  ∀ p k, fs w !! p = Some k → fs w' !! p = Some k.

(** The platform report, the command line and the handlers of the root
    logger are the same in two states. *)
Definition env_kept (w w' : World) : Prop :=
  platform w' = platform w ∧ sys_argv w' = sys_argv w ∧
  log_file w' = log_file w ∧ consoles w' = consoles w.


(** No separator occurs in a string. *)
Fixpoint no_sep (s : string) : Prop :=
  match s with
  | EmptyString => True
  | String c s' => c ≠ os_path.sep ∧ no_sep s'
  end.

(** A process like [sample_world cl], on an interpreter whose [platform]
    module has no [linux_distribution] (Python 3.8 and later). *)
Definition recent_python_world (cl : CommandLine) : World :=
  {| fs := {[ "genes.gff" := RegularFile ]};
     utc := λ _, sample_time; utc_reads := 0;
     platform :=
       {| system := "Linux"; processor := "x86_64"; release := "5.15.0";
          version := "#1 SMP"; linux_distribution := None;
          mac_ver := ""; architecture := "64bit"; python_version := "3.8.10";
          module_version := {[ "eve" := "0.1"; "numpy" := "1.24.4" ]} |};
     sys_argv := cl;
     log_file := None; consoles := []; journal := [] |}.

(** The process [sample_world cl] once a first [__init__] has gone through:
    its root logger has its handlers. *)
Definition configured_world (cl : CommandLine) : World :=
  (__init__ cl (sample_world cl)).2.

(** * Properties of the driver *)

(* stdpp's [naive_solver] clears hypotheses it has already consumed *)
#[local] Set Warnings "-clear-no-such-hyp".

(** Unfolds the plumbing of computations. *)
Ltac py_unfold :=
  unfold isfile, isdir, exists_, getattr_bam, bind, get, ret, raise in *.

(** ** Computations *)

Lemma bind_Return {A B} (m : Py A) (k : A → Py B) w b w' :
  bind m k w = (Return b, w') →
  ∃ a w1, m w = (Return a, w1) ∧ k a w1 = (Return b, w').
Proof. unfold bind. destruct (m w) as [[a|e] w1]; [eauto|done]. Qed.

Lemma bind_Raise {A B} (m : Py A) (k : A → Py B) w e w' :
  bind m k w = (Raise e, w') →
  m w = (Raise e, w') ∨ ∃ a w1, m w = (Return a, w1) ∧ k a w1 = (Raise e, w').
Proof. unfold bind. destruct (m w) as [[a|e'] w1]; [eauto|]. intros [= -> ->]. by left. Qed.

Lemma bind_eq_Return {A B} (m : Py A) (k : A → Py B) w a w1 :
  m w = (Return a, w1) → bind m k w = k a w1.
Proof. unfold bind. by intros ->. Qed.

Section Combinators.
Context {A B : Type}.
Implicit Types (m : Py A) (k : A → Py B) (classes : list string).

Lemma raises_only_ret classes (a : A) : raises_only classes (ret a).
Proof. by intros w e w'. Qed.

Lemma raises_only_get classes (f : World → A) : raises_only classes (get f).
Proof. by intros w e w'. Qed.

Lemma raises_only_raise classes (e : Exception) :
  exc_class e ∈ classes → raises_only classes (raise (A := A) e).
Proof. intros He w e' w' [= <- _]. done. Qed.

Lemma raises_only_bind classes m k :
  raises_only classes m → (∀ a, raises_only classes (k a)) →
  raises_only classes (bind m k).
Proof.
  intros Hm Hk w e w' [?|(a & w1 & _ & ?)]%bind_Raise; [by eapply Hm|by eapply Hk].
Qed.

Lemma raises_only_mono classes classes' m :
  classes ⊆ classes' → raises_only classes m → raises_only classes' m.
Proof. intros Hsub Hm w e w' ?. eapply Hsub, Hm. done. Qed.

Lemma raises_only_try_except classes m cls (handler : Py A) :
  raises_only (cls :: classes) m → raises_only classes handler →
  raises_only classes (try_except m cls handler).
Proof.
  intros Hm Hh w e w'. unfold try_except.
  destruct (m w) as [[a|e0] w1] eqn:Hw; [done|].
  destruct (decide (exc_class e0 = cls)) as [|Hne]; [by apply Hh|].
  intros [= <- <-]. apply Hm in Hw. by apply elem_of_cons in Hw as [?|?].
Qed.
End Combinators.

(** ** Argument parsing and validation *)

(** The parser returns an object with no [bam] attribute and leaves the
    process state alone. *)
Lemma ArgumentParser_parse_args_inv w args w' :
  ArgumentParser_parse_args w = (Return args, w') →
  w' = w ∧ bam args = None ∧ input_reads args ≠ [] ∧
  input_reads args = arg_input_reads (sys_argv w) ∧
  opt_gff (sys_argv w) = Some (gff args) ∧
  opt_fasta (sys_argv w) = Some (fasta args).
Proof.
  unfold ArgumentParser_parse_args.
  destruct (arg_input_reads (sys_argv w)) as [|r rs] eqn:Hr; [done|].
  destruct (opt_fasta (sys_argv w)) as [f|]; [|done].
  destruct (opt_gff (sys_argv w)) as [g|]; [|done].
  by intros [= <- <-].
Qed.

(** The parser reads nothing but [sys.argv]. *)
Lemma ArgumentParser_parse_args_argv w w' r w1 :
  ArgumentParser_parse_args w = (r, w1) →
  sys_argv w' = sys_argv w →
  w1 = w ∧ ArgumentParser_parse_args w' = (r, w').
Proof.
  unfold ArgumentParser_parse_args. intros Hp ->.
  destruct (arg_input_reads (sys_argv w)); [by simplify_eq|].
  destruct (opt_fasta (sys_argv w)), (opt_gff (sys_argv w)); by simplify_eq.
Qed.

(** What [parse_args] does with an object the parser returned. *)
Lemma parse_args_unfold argv w args :
  ArgumentParser_parse_args w = (Return args, w) →
  parse_args argv w =
    if 2 <? length (input_reads args)
    then (Raise (PyError "IOError" "Too many input arguments specified"), w)
    else match fs w !! gff args with
         | Some RegularFile =>
             match input_reads args with
             | [reads] =>
                 if Str.endswith reads ".bam"
                 then (Raise no_attribute_bam, w)
                 else (Return args, w)
             | _ => (Return args, w)
             end
         | _ => (Raise (PyError "IOError" "Invalid GFF filepath specified"), w)
         end.
Proof.
  intros Hp. destruct (ArgumentParser_parse_args_inv _ _ _ Hp) as (_ & Hbam & _).
  unfold parse_args. py_unfold. rewrite Hp.
  destruct (2 <? length (input_reads args)); [done|]. simpl.
  case_bool_decide as Hgff; simpl.
  - rewrite Hgff. destruct (input_reads args) as [|reads [|]]; try done.
    destruct (Str.endswith reads ".bam"); [|done]. by rewrite Hbam.
  - by destruct (fs w !! gff args) as [[]|].
Qed.

(** [parse_args] never changes the process state. *)
Lemma parse_args_world argv w r w' : parse_args argv w = (r, w') → w' = w.
Proof.
  destruct (ArgumentParser_parse_args w) as [[args|e] w1] eqn:Hp.
  - destruct (ArgumentParser_parse_args_inv _ _ _ Hp) as (-> & _).
    rewrite (parse_args_unfold _ _ _ Hp).
    destruct (2 <? _); [by intros [= _ <-]|].
    destruct (fs w !! gff args) as [[]|]; try by intros [= _ <-].
    destruct (input_reads args) as [|reads [|]]; try by intros [= _ <-].
    destruct (Str.endswith reads ".bam"); by intros [= _ <-].
  - unfold parse_args, bind. rewrite Hp.
    destruct (ArgumentParser_parse_args_argv _ w _ _ Hp eq_refl) as [-> _].
    by intros [= _ <-].
Qed.

(** The object [parse_args] returns is the parser's and has no [bam]
    attribute. *)
Lemma parse_args_returns argv w args w' :
  parse_args argv w = (Return args, w') →
  w' = w ∧ ArgumentParser_parse_args w = (Return args, w) ∧ bam args = None ∧
  length (input_reads args) ≤ 2 ∧ fs w !! gff args = Some RegularFile.
Proof.
  intros Hr. pose proof (parse_args_world _ _ _ _ Hr) as ->. split; [done|].
  destruct (ArgumentParser_parse_args w) as [[args'|e] w1] eqn:Hp.
  - destruct (ArgumentParser_parse_args_inv _ _ _ Hp) as (-> & Hb & _).
    rewrite (parse_args_unfold _ _ _ Hp) in Hr.
    destruct (2 <? length (input_reads args')) eqn:Hlen; [done|].
    apply Nat.ltb_ge in Hlen.
    destruct (fs w !! gff args') as [[]|] eqn:Hgff; try done.
    assert (args' = args) as <-; [|done].
    destruct (input_reads args') as [|reads [|]]; try congruence.
    destruct (Str.endswith reads ".bam"); congruence.
  - unfold parse_args, bind in Hr. by rewrite Hp in Hr.
Qed.

(** C9, as the code has it: once the parser has accepted the command line,
    [parse_args] raises [IOError] exactly when more than two [input_reads]
    paths were given or the [--gff] path is not an existing file; and its
    outcome depends on the file system through that one test only, so the
    [--fasta], [--output] and [--working-directory] paths are never checked
    for existence. *)
Theorem parse_args_IOError_iff argv w args :
  ArgumentParser_parse_args w = (Return args, w) →
  ((∃ msg, (parse_args argv w).1 = Raise (PyError "IOError" msg)) ↔
     2 < length (input_reads args) ∨ fs w !! gff args ≠ Some RegularFile)
  ∧ ∀ w', sys_argv w' = sys_argv w →
          (fs w' !! gff args = Some RegularFile ↔
           fs w !! gff args = Some RegularFile) →
          (parse_args argv w').1 = (parse_args argv w).1.
Proof.
  intros Hp. split.
  - rewrite (parse_args_unfold _ _ _ Hp).
    destruct (2 <? length (input_reads args)) eqn:Hlen.
    + apply Nat.ltb_lt in Hlen. split; [intros _; by left | by eexists].
    + apply Nat.ltb_ge in Hlen.
      destruct (fs w !! gff args) as [[]|].
      * split; [|intros [?|?]; [lia|done]].
        intros [msg Hm].
        destruct (input_reads args) as [|reads [|]]; try done.
        by destruct (Str.endswith reads ".bam").
      * split; [intros _; by right | by eexists].
      * split; [intros _; by right | by eexists].
  - intros w' Hargv Hgff.
    assert (ArgumentParser_parse_args w' = (Return args, w')) as Hp'.
    { by destruct (ArgumentParser_parse_args_argv _ w' _ _ Hp Hargv). }
    rewrite (parse_args_unfold _ _ _ Hp), (parse_args_unfold _ _ _ Hp').
    destruct (2 <? length (input_reads args)); [done|].
    revert Hgff.
    destruct (fs w !! gff args) as [[]|], (fs w' !! gff args) as [[]|];
      intros [H1 H2]; try done; try (by specialize (H1 eq_refl));
      try (by specialize (H2 eq_refl)).
    by destruct (input_reads args) as [|reads [|]]; try destruct (Str.endswith _ _).
Qed.

(** ** What the steps of [__init__] raise and write *)

#[local] Instance files_kept_refl : Reflexive files_kept.
Proof. by intros w p. Qed.

#[local] Instance files_kept_trans : Transitive files_kept.
Proof. intros w1 w2 w3 H12 H23 p ?. by apply H12, H23. Qed.

#[local] Instance fs_kept_refl : Reflexive fs_kept.
Proof. by intros w. Qed.

#[local] Instance fs_kept_trans : Transitive fs_kept.
Proof. unfold fs_kept. intros w1 w2 w3 H12 H23. congruence. Qed.

Lemma fs_kept_files_kept w w' : fs_kept w w' → files_kept w w'.
Proof. unfold fs_kept, files_kept. by intros ->. Qed.

Section Preserves.
Context {A B : Type} (P : World → World → Prop) `{!Reflexive P, !Transitive P}.

Lemma preserves_ret (a : A) : preserves P (ret a).
Proof. intros w r w' [= _ <-]. done. Qed.

Lemma preserves_get (f : World → A) : preserves P (get f).
Proof. intros w r w' [= _ <-]. done. Qed.

Lemma preserves_raise (e : Exception) : preserves P (raise (A := A) e).
Proof. intros w r w' [= _ <-]. done. Qed.

Lemma preserves_bind (m : Py A) (k : A → Py B) :
  preserves P m → (∀ a, preserves P (k a)) → preserves P (bind m k).
Proof.
  intros Hm Hk w r w'. unfold bind.
  destruct (m w) as [[a|e] w1] eqn:Hw.
  - intros Hk'. etrans; [by eapply Hm|by eapply Hk].
  - intros [= _ <-]. by eapply Hm.
Qed.

Lemma preserves_try_except (m : Py A) cls (handler : Py A) :
  preserves P m → preserves P handler → preserves P (try_except m cls handler).
Proof.
  intros Hm Hh w r w'. unfold try_except.
  destruct (m w) as [[a|e] w1] eqn:Hw.
  - intros [= _ <-]. by eapply Hm.
  - destruct (decide (exc_class e = cls)).
    + intros Hh'. etrans; [by eapply Hm|by eapply Hh].
    + intros [= _ <-]. by eapply Hm.
Qed.
End Preserves.

Lemma preserves_impl {A} (P Q : World → World → Prop) (m : Py A) :
  (∀ w w', P w w' → Q w w') → preserves P m → preserves Q m.
Proof. intros HPQ Hm w r w' ?. by eapply HPQ, Hm. Qed.

(** Membership in an explicit list, and inclusion in a longer one. *)
Ltac in_list := by repeat constructor.
Ltac sub_list := intros ? ?; by apply list_elem_of_further.

(** Splits a goal about a composite computation along its structure. *)
Ltac py_step :=
  match goal with
  | |- raises_only _ (bind _ _) => apply raises_only_bind; [|intros ?]
  | |- raises_only _ (ret _) => apply raises_only_ret
  | |- raises_only _ (get _) => apply raises_only_get
  | |- raises_only _ (isfile _) => apply raises_only_get
  | |- raises_only _ (isdir _) => apply raises_only_get
  | |- raises_only _ (exists_ _) => apply raises_only_get
  | |- raises_only _ (raise _) => apply raises_only_raise; in_list
  | |- raises_only _ (try_except _ _ _) => apply raises_only_try_except
  | |- preserves _ (bind _ _) => apply preserves_bind; [apply _ | |intros ?]
  | |- preserves _ (ret _) => apply preserves_ret; apply _
  | |- preserves _ (get _) => apply preserves_get; apply _
  | |- preserves _ (isfile _) => apply preserves_get; apply _
  | |- preserves _ (isdir _) => apply preserves_get; apply _
  | |- preserves _ (exists_ _) => apply preserves_get; apply _
  | |- preserves _ (raise _) => apply preserves_raise; apply _
  | |- preserves _ (try_except _ _ _) => apply preserves_try_except; [apply _ | |]
  | |- _ _ (if ?b then _ else _) => destruct b
  | |- _ _ (match ?x with _ => _ end) => destruct x
  | |- _ _ (let '(_, _) := ?x in _) => destruct x
  end.

Lemma mkdir_raises : ∀ name, raises_only init_errors (mkdir name).
Proof.
  intros name w e w'. unfold mkdir.
  destruct (fs w !! name); [intros [= <- _]; in_list|].
  destruct (decide _); [done|].
  destruct (fs w !! _) as [[]|]; [|done|]; intros [= <- _]; in_list.
Qed.

Lemma mkdir_files_kept : ∀ name, preserves files_kept (mkdir name).
Proof.
  intros name w r w'. unfold mkdir.
  assert (files_kept w (set_fs (<[name:=Directory]> (fs w)) w)) as Hins.
  { intros p. simpl. destruct (decide (p = name)) as [->|].
    - by rewrite lookup_insert_eq.
    - by rewrite lookup_insert_ne. }
  destruct (fs w !! name); [by intros [= _ <-]|].
  destruct (decide _); [by intros [= _ <-]|].
  destruct (fs w !! _) as [[]|]; by intros [= _ <-].
Qed.

Lemma makedirs_from_raises fuel :
  ∀ name, raises_only init_errors (makedirs_from fuel name).
Proof.
  induction fuel as [|fuel IH]; intros name; simpl;
    repeat first [apply mkdir_raises | apply IH
                 | by eapply raises_only_mono; [|apply IH]; sub_list
                 | py_step].
Qed.

Lemma makedirs_from_files_kept fuel :
  ∀ name, preserves files_kept (makedirs_from fuel name).
Proof.
  induction fuel as [|fuel IH]; intros name; simpl;
    repeat first [apply mkdir_files_kept | apply IH | py_step].
Qed.

Lemma utcnow_eq w :
  utcnow w = (Return (utc w (utc_reads w)),
              {| fs := fs w; utc := utc w; utc_reads := S (utc_reads w);
                 platform := platform w; sys_argv := sys_argv w;
                 log_file := log_file w; consoles := consoles w;
                 journal := journal w |}).
Proof. done. Qed.

Lemma utcnow_raises : raises_only init_errors utcnow.
Proof. by intros w e w'. Qed.

Lemma utcnow_fs_kept : preserves fs_kept utcnow.
Proof. by intros w r w' [= _ <-]. Qed.

Lemma for_each_raises {A} (l : list A) (body : A → Py unit) :
  (∀ x, raises_only init_errors (body x)) →
  raises_only init_errors (for_each l body).
Proof. intros Hb. induction l; simpl; repeat first [apply Hb | done | py_step]. Qed.

Lemma for_each_preserves {A} P `{!Reflexive P, !Transitive P}
    (l : list A) (body : A → Py unit) :
  (∀ x, preserves P (body x)) → preserves P (for_each l body).
Proof. intros Hb. induction l; simpl; repeat first [apply Hb | done | py_step]. Qed.

Lemma create_working_directories_raises args :
  raises_only init_errors (create_working_directories args).
Proof.
  unfold create_working_directories, makedirs.
  repeat first [apply utcnow_raises | apply for_each_raises; intros ?
               | apply makedirs_from_raises | py_step].
Qed.

Lemma create_working_directories_files_kept args :
  preserves files_kept (create_working_directories args).
Proof.
  unfold create_working_directories, makedirs.
  repeat first [apply (preserves_impl _ _ _ fs_kept_files_kept), utcnow_fs_kept
               | apply for_each_preserves; [apply _..|intros ?]
               | apply makedirs_from_files_kept | py_step].
Qed.

(** The directory [create_working_directories] returns: the
    [--working-directory] joined with the clock reading, to the second. *)
Lemma create_working_directories_returns args w d w' :
  create_working_directories args w = (Return d, w') →
  d = os_path.join (working_directory args)
        [strftime_compact (utc w (utc_reads w))].
Proof.
  unfold create_working_directories.
  intros (now & w1 & Hnow & (? & w2 & _ & Hret)%bind_Return)%bind_Return.
  rewrite utcnow_eq in Hnow. unfold ret in Hret. by simplify_eq.
Qed.

(** ** The recursion of [os.makedirs] *)

Lemma rev_app_length s1 s2 :
  String.length (String.rev_app s1 s2) = String.length s1 + String.length s2.
Proof.
  revert s2. induction s1 as [|a s1 IH]; intros s2; simpl; [done|].
  rewrite IH. simpl. lia.
Qed.

Lemma rev_length s : String.length (String.rev s) = String.length s.
Proof. unfold String.rev. rewrite rev_app_length. simpl. lia. Qed.

Lemma lstrip_char_length c s :
  String.length (Str.lstrip_char c s) ≤ String.length s.
Proof.
  induction s as [|a s IH]; simpl; [done|].
  destruct (decide (a = c)); simpl; lia.
Qed.

Lemma rstrip_char_length c s :
  String.length (Str.rstrip_char c s) ≤ String.length s.
Proof.
  unfold Str.rstrip_char. rewrite rev_length.
  etrans; [apply lstrip_char_length|]. by rewrite rev_length.
Qed.

Lemma split_rev_length r acc :
  String.length (os_path.split_rev r acc).1 +
  String.length (os_path.split_rev r acc).2 ≤ String.length r + String.length acc.
Proof.
  revert acc. induction r as [|c r IH]; intros acc; simpl; [done|].
  destruct (decide (c = os_path.sep)); simpl; [done|].
  etrans; [apply IH|]. simpl. lia.
Qed.

(** The two parts [os.path.split] returns are no longer than the path. *)
Lemma split_length p :
  String.length (os_path.split p).1 + String.length (os_path.split p).2 ≤
  String.length p.
Proof.
  unfold os_path.split.
  pose proof (split_rev_length (String.rev p) "") as Hrev.
  destruct (os_path.split_rev (String.rev p) "") as [rhead tail]. simpl in *.
  rewrite rev_length in Hrev.
  pose proof (rstrip_char_length os_path.sep (String.rev rhead)) as Hstrip.
  rewrite rev_length in Hstrip.
  destruct (decide _); [rewrite rev_length|]; lia.
Qed.

(** [os.makedirs] does not depend on the bound of its recursion once the
    bound reaches the length of the path: the recursion goes through. *)
Lemma makedirs_from_fuel fuel1 fuel2 name w :
  String.length name ≤ fuel1 → String.length name ≤ fuel2 →
  makedirs_from fuel1 name w = makedirs_from fuel2 name w.
Proof.
  revert fuel2 name w.
  induction fuel1 as [|fuel1 IH]; intros fuel2 name w H1 H2.
  - destruct name; [|simpl in H1; lia]. by destruct fuel2.
  - destruct fuel2 as [|fuel2].
    { destruct name; [done|simpl in H2; lia]. }
    simpl. pose proof (split_length name) as Hname.
    destruct (os_path.split name) as [head tail] eqn:Hsplit. simpl in Hname.
    pose proof (split_length head) as Hhead.
    destruct (decide (tail = "")) as [->|Htail].
    + destruct (os_path.split head) as [head' tail'] eqn:Hsplit'. simpl in Hhead.
      unfold bind, exists_, get, try_except.
      destruct (bool_decide (head' ≠ "") && bool_decide (tail' ≠ "") && _) eqn:Hc;
        [|done].
      apply andb_prop in Hc as [[_ Htail']%andb_prop _].
      apply bool_decide_eq_true in Htail'.
      rewrite (IH fuel2 head'); [done|..]; destruct tail'; simpl in *; try done; lia.
    + unfold bind, exists_, get, try_except.
      destruct (bool_decide (head ≠ "") && bool_decide (tail ≠ "") && _) eqn:Hc;
        [|done].
      rewrite (IH fuel2 head); [done|..]; destruct tail; simpl in *; try done; lia.
Qed.

Lemma parse_args_raises argv : raises_only init_errors (parse_args argv).
Proof.
  intros w e w' Hr.
  destruct (ArgumentParser_parse_args w) as [[args|e0] w1] eqn:Hp.
  - destruct (ArgumentParser_parse_args_inv _ _ _ Hp) as (-> & _).
    rewrite (parse_args_unfold _ _ _ Hp) in Hr.
    destruct (2 <? _); [simplify_eq; in_list|].
    destruct (fs w !! gff args) as [[]|]; [|simplify_eq; in_list..].
    destruct (input_reads args) as [|reads [|]]; try done.
    destruct (Str.endswith reads ".bam"); [simplify_eq; in_list|done].
  - unfold parse_args, bind in Hr. rewrite Hp in Hr.
    unfold ArgumentParser_parse_args in Hp.
    destruct (arg_input_reads _); [simplify_eq; in_list|].
    destruct (opt_fasta _); [|simplify_eq; in_list].
    destruct (opt_gff _); simplify_eq; in_list.
Qed.

Lemma basicConfig_raises path : raises_only init_errors (basicConfig path).
Proof.
  intros w e w'. unfold basicConfig.
  destruct (log_file w); [done|]. destruct (consoles w); [|done].
  destruct (fs w !! path) as [[]|]; [done|intros [= <- _]; in_list|].
  destruct (decide _); [done|].
  destruct (fs w !! _) as [[]|]; [|done|]; intros [= <- _]; in_list.
Qed.

Lemma basicConfig_files path : preserves (files_kept_but path) (basicConfig path).
Proof.
  intros w r w'. unfold basicConfig.
  assert (∀ w1, fs w1 = <[path:=RegularFile]> (fs w) → files_kept_but path w w1)
    as Hins.
  { intros w1 Hw1 p. rewrite Hw1. destruct (decide (p = path)) as [->|]; [by right|].
    rewrite lookup_insert_ne by done. by left. }
  assert (files_kept_but path w w) as Hrefl by (intros p; by left).
  destruct (log_file w); [by intros [= _ <-]|].
  destruct (consoles w); [|by intros [= _ <-]].
  destruct (fs w !! path) as [[]|]; [intros [= _ <-]; by apply Hins|by intros [= _ <-]|].
  destruct (decide _); [intros [= _ <-]; by apply Hins|].
  destruct (fs w !! _) as [[]|]; intros [= _ <-]; first [by apply Hins|done].
Qed.

Lemma addHandler_raises l : raises_only init_errors (addHandler l).
Proof. by intros w e w'. Qed.

Lemma logging_log_raises l msg : raises_only init_errors (logging_log l msg).
Proof. by intros w e w'. Qed.

Lemma logging_log_fs_kept l msg : preserves fs_kept (logging_log l msg).
Proof. by intros w r w' [= _ <-]. Qed.

Lemma import_version_raises m : raises_only init_errors (import_version m).
Proof.
  intros w e w'. unfold import_version.
  destruct (_ !! m); [done|]. intros [= <- _]. in_list.
Qed.

Lemma import_version_fs_kept m : preserves fs_kept (import_version m).
Proof.
  intros w r w'. unfold import_version. destruct (_ !! m); by intros [= _ <-].
Qed.

Lemma initialize_logger_raises wd : raises_only init_errors (initialize_logger wd).
Proof.
  unfold initialize_logger.
  repeat first [apply basicConfig_raises | apply addHandler_raises | py_step].
Qed.

Lemma initialize_logger_files wd :
  preserves (files_kept_but (os_path.join wd ["eve.log"])) (initialize_logger wd).
Proof.
  unfold initialize_logger. intros w r w'. unfold bind.
  destruct (basicConfig _ w) as [[[]|e] w1] eqn:Hb.
  - intros [= _ <-]. by apply basicConfig_files in Hb.
  - intros [= _ <-]. by apply basicConfig_files in Hb.
Qed.

Lemma log_system_info_raises : raises_only init_errors log_system_info.
Proof.
  unfold log_system_info, logging_info, logging_debug.
  repeat first [apply logging_log_raises | apply utcnow_raises
               | apply import_version_raises
               | by eapply raises_only_mono; [|apply import_version_raises]; sub_list
               | py_step].
Qed.

Lemma log_system_info_fs_kept : preserves fs_kept log_system_info.
Proof.
  unfold log_system_info, logging_info, logging_debug.
  repeat first [apply logging_log_fs_kept | apply utcnow_fs_kept
               | apply import_version_fs_kept | py_step].
Qed.

(** ** The detector loop *)

(** The configuration path of a detector: the [.yaml] path if the file
    system has an entry for it, else the [.txt] path; the lookup raises
    nothing and changes nothing. *)
Lemma detector_conf_eq detector w :
  detector_conf detector w =
    (Return
       (if bool_decide (is_Some
             (fs w !! os_path.join "config" ["detectors"; detector +:+ ".yaml"]))
        then os_path.join "config" ["detectors"; detector +:+ ".yaml"]
        else os_path.join "config" ["detectors"; detector +:+ ".txt"]), w).
Proof. unfold detector_conf. py_unfold. simpl. by case_bool_decide. Qed.

(** Without a [bam] attribute the loop raises at the first ["mpileup"] and
    otherwise loads nothing. *)
Lemma load_detectors_no_bam args wd names loaded w :
  bam args = None →
  load_detectors args wd names loaded w =
    if bool_decide ("mpileup" ∈ names)
    then (Raise no_attribute_bam, w)
    else (Return loaded, w).
Proof.
  intros Hbam. induction names as [|d names IH]; cbn [load_detectors].
  - by rewrite bool_decide_eq_false_2 by apply not_elem_of_nil.
  - rewrite (bind_eq_Return _ _ _ _ _ (detector_conf_eq d w)).
    destruct (decide (d = "mpileup")) as [->|Hne].
    + rewrite (bool_decide_eq_true_2 ("mpileup" ∈ _)) by apply list_elem_of_here.
      unfold bind, getattr_bam. by rewrite Hbam.
    + rewrite (bind_eq_Return _ _ w loaded w) by done. rewrite IH.
      apply (f_equal (λ b : bool, if b then _ else _)), bool_decide_ext.
      rewrite elem_of_cons. split; [by right|]. by intros [?|?].
Qed.

(** With a [bam] attribute the loop applies [MpileupDetector] to
    [(bam, fasta, conf, working_dir)] for every ["mpileup"] among the names,
    [conf] being the configuration path chosen for it; the other names add
    nothing. *)
Lemma load_detectors_bam args wd names loaded w b :
  bam args = Some b →
  ∃ conf, detector_conf "mpileup" w = (Return conf, w) ∧
    load_detectors args wd names loaded w =
      (Return (loaded ++ ((λ _, MpileupDetector b (fasta args) conf wd) <$>
                            filter (λ d, d = "mpileup") names)), w).
Proof.
  intros Hbam. eexists. split; [apply detector_conf_eq|].
  revert loaded. induction names as [|d names IH]; intros loaded;
    cbn [load_detectors].
  - by rewrite filter_nil, app_nil_r.
  - rewrite (bind_eq_Return _ _ _ _ _ (detector_conf_eq d w)).
    destruct (decide (d = "mpileup")) as [->|Hne].
    + unfold getattr_bam. rewrite Hbam.
      rewrite filter_cons_True by done.
      unfold bind at 1. unfold bind at 1. cbn [ret]. rewrite IH.
      by rewrite <-app_assoc.
    + rewrite filter_cons_False by done.
      rewrite (bind_eq_Return _ _ w loaded w) by done. apply IH.
Qed.

(** ** [__init__] as a whole *)

Lemma load_detectors_raises args wd names :
  ∀ loaded, raises_only init_errors (load_detectors args wd names loaded).
Proof.
  induction names as [|d names IH]; intros loaded; cbn [load_detectors].
  - apply raises_only_ret.
  - unfold detector_conf, getattr_bam, no_attribute_bam.
    repeat first [apply IH | py_step].
Qed.

(** Whatever [__init__] raises is one of [init_errors]. *)
Lemma init_raises argv : raises_only init_errors (__init__ argv).
Proof.
  unfold __init__.
  repeat first [apply parse_args_raises | apply create_working_directories_raises
               | apply initialize_logger_raises | apply log_system_info_raises
               | apply load_detectors_raises | py_step].
Qed.

(** The steps behind an instance [__init__] returned: the instance has no
    [bam] attribute in its arguments, no mapper and no detector. *)
Lemma init_returns argv w app w' :
  __init__ argv w = (Return app, w') →
  ∃ args w1 w2,
    parse_args argv w = (Return args, w) ∧
    create_working_directories args w = (Return (self_working_dir app), w1) ∧
    initialize_logger (self_working_dir app) w1 = (Return (), w2) ∧
    log_system_info w2 = (Return (), w') ∧
    ("mpileup" ∉ Str.split "," (variant_detectors args)) ∧
    app = {| self_args := args; self_working_dir := self_working_dir app;
             self_mapper := None; self_detectors := []; self_bam := None |}.
Proof.
  unfold __init__.
  intros (args & w0 & Hparse & Hrest)%bind_Return.
  destruct (parse_args_returns _ _ _ _ Hparse) as (-> & _ & Hbam & _).
  apply bind_Return in Hrest as (wd & w1 & Hwd & Hrest).
  apply bind_Return in Hrest as ([] & w2 & Hlog & Hrest).
  apply bind_Return in Hrest as ([] & w3 & Hinfo & Hrest).
  apply bind_Return in Hrest as (ds & w4 & Hload & Hret).
  rewrite load_detectors_no_bam in Hload by done.
  case_bool_decide as Hmp; [done|]. unfold ret in Hret. simplify_eq/=.
  exists args, w1, w2. repeat split; try done.
  unfold load_mapper, has_bam. by rewrite Hbam.
Qed.

(** [__init__] once its first four steps have gone through: the detector
    loop decides. *)
Lemma init_after_bootstrap argv w args w1 wd w2 w3 :
  parse_args argv w = (Return args, w) →
  create_working_directories args w = (Return wd, w1) →
  initialize_logger wd w1 = (Return (), w2) →
  log_system_info w2 = (Return (), w3) →
  __init__ argv w =
    if bool_decide ("mpileup" ∈ Str.split "," (variant_detectors args))
    then (Raise no_attribute_bam, w3)
    else (Return {| self_args := args; self_working_dir := wd;
                    self_mapper := None; self_detectors := [];
                    self_bam := None |}, w3).
Proof.
  intros Hparse Hwd Hlog Hinfo. unfold __init__.
  destruct (parse_args_returns _ _ _ _ Hparse) as (_ & _ & Hbam & _).
  rewrite (bind_eq_Return _ _ _ _ _ Hparse), (bind_eq_Return _ _ _ _ _ Hwd),
    (bind_eq_Return _ _ _ _ _ Hlog), (bind_eq_Return _ _ _ _ _ Hinfo).
  unfold bind. rewrite load_detectors_no_bam by done.
  case_bool_decide; [done|]. unfold load_mapper, has_bam. by rewrite Hbam.
Qed.

(** The only regular file [__init__] can create is the log file of the
    working directory. *)
Lemma init_files argv w app w' :
  __init__ argv w = (Return app, w') →
  files_kept_but (os_path.join (self_working_dir app) ["eve.log"]) w w'.
Proof.
  intros (args & w1 & w2 & _ & Hwd & Hlog & Hinfo & _)%init_returns p Hp.
  apply log_system_info_fs_kept in Hinfo. rewrite Hinfo in Hp.
  apply initialize_logger_files in Hlog. apply Hlog in Hp as [Hp|?]; [|by right].
  left. by eapply create_working_directories_files_kept.
Qed.

(** [run] on an instance without a [bam] attribute: it returns [None] and
    does nothing else. *)
Lemma run_no_bam mapper_run self w :
  bam (self_args self) = None →
  run mapper_run self w = (Return (self, PyNone), w).
Proof. intros Hbam. unfold run, has_bam. by rewrite Hbam. Qed.

(** ** [__init__], [run] and the script *)

(** An instance [__init__] returned holds no detector, and [run] on it, in
    whatever state, returns [None] and changes nothing. *)
Lemma init_then_run mapper_run argv w app w1 :
  __init__ argv w = (Return app, w1) →
  self_detectors app = [] ∧
  ∀ w2, run mapper_run app w2 = (Return (app, PyNone), w2).
Proof.
  intros (args & ? & ? & Hparse & _ & _ & _ & _ & Happ)%init_returns.
  apply parse_args_returns in Hparse as (_ & _ & Hbam & _).
  split; [by rewrite Happ|]. intros w2. apply run_no_bam. by rewrite Happ.
Qed.

(** C1, as the code has it: on every instance [__init__] returned, [run]
    raises nothing, [NoUsableDetectorOutputsError] included: the instance
    holds no detector, [run] executes none, returns [None] and leaves the
    process state, the file system with it, as it found it; so no output
    file is written. *)
Theorem run_returns_None mapper_run argv w app w1 :
  __init__ argv w = (Return app, w1) →
  self_detectors app = [] ∧
  ∀ w2, run mapper_run app w2 = (Return (app, PyNone), w2).
Proof.
  intros Hinit. apply init_returns in Hinit as (args & w' & w'' & Hinit).
  destruct Hinit as (Hparse & _ & _ & _ & _ & ->). simpl.
  apply parse_args_returns in Hparse as (_ & _ & Hbam & _).
  split; [done|]. intros w2. unfold run, has_bam. simpl. by rewrite Hbam.
Qed.

Lemma run_returns_None_witness :
  self_detectors fastq_app = [] ∧
  run sample_mapper_run fastq_app (__init__ fastq_cl (sample_world fastq_cl)).2 =
    (Return (fastq_app, PyNone), (__init__ fastq_cl (sample_world fastq_cl)).2).
Proof.
  destruct (run_returns_None sample_mapper_run fastq_cl (sample_world fastq_cl)
              fastq_app (__init__ fastq_cl (sample_world fastq_cl)).2)
    as [Hdet Hrun]; [by vm_compute|].
  split; [exact Hdet|apply Hrun].
Defined.

(** C1 fails on the code: with the detectors [gatk,varscan] configured, none
    of which produces any output, [run] returns [None] instead of raising
    [NoUsableDetectorOutputsError]. *)
Lemma run_without_detector_output_returns :
  variant_detectors (self_args fastq_app) = "gatk,varscan" ∧
  (__init__ fastq_cl (sample_world fastq_cl)).1 = Return fastq_app ∧
  (run sample_mapper_run fastq_app
     (__init__ fastq_cl (sample_world fastq_cl)).2).1 = Return (fastq_app, PyNone).
Proof. by vm_compute. Qed.

(** C3, as the code has it: [__init__] never raises [ConfigurationError];
    a detector name other than ["mpileup"] is skipped without a word, and
    once the arguments are validated and the working directories and the log
    are set up, a list of such names yields an instance with no detector. *)
Theorem unrecognized_detectors_skipped argv w args w1 wd w2 w3 :
  parse_args argv w = (Return args, w) →
  create_working_directories args w = (Return wd, w1) →
  initialize_logger wd w1 = (Return (), w2) →
  log_system_info w2 = (Return (), w3) →
  "mpileup" ∉ Str.split "," (variant_detectors args) →
  __init__ argv w =
    (Return {| self_args := args; self_working_dir := wd; self_mapper := None;
               self_detectors := []; self_bam := None |}, w3)
  ∧ ∀ argv' w' e w'', __init__ argv' w' = (Raise e, w'') →
                      exc_class e ≠ "ConfigurationError".
Proof.
  intros Hparse Hwd Hlog Hinfo Hmp. split.
  - rewrite (init_after_bootstrap _ _ _ _ _ _ _ Hparse Hwd Hlog Hinfo).
    by rewrite bool_decide_eq_false_2.
  - intros argv' w' e w'' Hr%init_raises Hcls.
    assert ("ConfigurationError" ∉ init_errors) as Hnot
      by by apply (bool_decide_unpack _).
    apply Hnot. by rewrite <-Hcls.
Qed.

Lemma unrecognized_detectors_skipped_witness :
  (__init__ fastq_cl (sample_world fastq_cl)).1 = Return fastq_app.
Proof.
  set (w := sample_world fastq_cl).
  pose (w1 := (create_working_directories fastq_args w).2).
  pose (w2 := (initialize_logger "output/20140517134509" w1).2).
  pose (w3 := (log_system_info w2).2).
  assert (__init__ fastq_cl w = (Return fastq_app, w3)) as Hinit.
  { apply (unrecognized_detectors_skipped fastq_cl w fastq_args w1
             "output/20140517134509" w2 w3); try by vm_compute.
    apply (bool_decide_unpack _). by vm_compute. }
  by rewrite Hinit.
Defined.

(** C3 fails on the code: a detector list naming [nosuchdetector] goes
    through [__init__], which returns an instance with no detector. *)
Lemma init_accepts_unknown_detector :
  (__init__ unknown_detector_cl (sample_world unknown_detector_cl)).1 =
    Return {| self_args :=
                {| input_reads := ["a_1.fastq"; "a_2.fastq"]; output := None;
                   fasta := "genome.fa"; gff := "genes.gff"; mapper := "bwa";
                   variant_detectors := "nosuchdetector";
                   working_directory := "output/"; bam := None |};
              self_working_dir := "output/20140517134509";
              self_mapper := None; self_detectors := []; self_bam := None |}.
Proof. by vm_compute. Qed.

(** C4, as the code has it: whenever [__init__] returns, the script ends
    with exit status 0 in the very state [__init__] left: [run] writes
    nothing, to a temporary location or elsewhere, and the one regular file
    the whole process can create is the log of the working directory; the
    [--output] destination is never written. *)
Theorem main_exits_0_without_output mapper_run w app w1 :
  __init__ (sys_argv w) w = (Return app, w1) →
  main mapper_run w = (0%Z, w1) ∧
  files_kept_but (os_path.join (self_working_dir app) ["eve.log"]) w w1.
Proof.
  intros Hinit. split; [|by apply init_files in Hinit].
  unfold main. rewrite (bind_eq_Return _ _ _ _ _ Hinit).
  destruct (init_then_run mapper_run _ _ _ _ Hinit) as [_ Hrun].
  by rewrite (bind_eq_Return _ _ _ _ _ (Hrun w1)).
Qed.

Lemma main_exits_0_without_output_witness :
  (main sample_mapper_run (sample_world fastq_cl)).1 = 0%Z ∧
  files_kept_but "output/20140517134509/eve.log" (sample_world fastq_cl)
    (__init__ fastq_cl (sample_world fastq_cl)).2.
Proof.
  destruct (main_exits_0_without_output sample_mapper_run
              (sample_world fastq_cl) fastq_app
              (__init__ fastq_cl (sample_world fastq_cl)).2) as [Hmain Hfiles].
  - by vm_compute.
  - split; [by rewrite Hmain|exact Hfiles].
Defined.

(** C4 fails on the code: started with [-o final.vcf], the script ends
    with exit status 0 although [final.vcf] was never created. *)
Lemma main_succeeds_without_destination :
  output fastq_args = Some "final.vcf" ∧
  (main sample_mapper_run (sample_world fastq_cl)).1 = 0%Z ∧
  fs (main sample_mapper_run (sample_world fastq_cl)).2 !! "final.vcf" = None.
Proof. by vm_compute. Qed.

(** ** The configuration file of a detector *)

Lemma join_config detector ext :
  Str.startswith detector "/" = false →
  Str.startswith ext "/" = false →
  os_path.join "config" ["detectors"; detector +:+ ext] =
    "config/detectors/" +:+ detector +:+ ext.
Proof.
  intros Hd He. unfold os_path.join. cbn [foldl].
  change (os_path.join2 "config" "detectors") with "config/detectors".
  unfold os_path.join2.
  assert (Str.startswith (detector +:+ ext) "/" = false) as ->.
  { destruct detector as [|a detector]; [done|].
    change (String a detector +:+ ext) with (String a (detector +:+ ext)).
    simpl in *. by destruct (decide (a = "/"%char)). }
  done.
Qed.

(** [os.path.join] with a last component that begins with the separator:
    the components before it are dropped. *)
Lemma join_config_absolute detector ext :
  Str.startswith detector "/" = true →
  os_path.join "config" ["detectors"; detector +:+ ext] = detector +:+ ext.
Proof.
  intros Hd. unfold os_path.join. cbn [foldl]. unfold os_path.join2 at 1.
  assert (Str.startswith (detector +:+ ext) "/" = true) as ->; [|done].
  destruct detector as [|a detector]; [done|].
  change (String a detector +:+ ext) with (String a (detector +:+ ext)).
  simpl in *. by destruct (decide (a = "/"%char)).
Qed.

(** C7, as the code has it: for a detector name that does not begin with
    [/], the configuration path chosen is [config/detectors/<name>.yaml] if
    the file system has that entry and [config/detectors/<name>.txt]
    otherwise; for a name that begins with [/], [os.path.join] drops
    [config/detectors] and the path chosen is [<name>.yaml] if the file
    system has that entry and [<name>.txt] otherwise.  The lookup returns
    normally in every case, also when neither file exists, leaves the state
    alone, and nothing [__init__] raises is a [ConfigNotFoundError]. *)
Theorem detector_conf_lookup detector w :
  (Str.startswith detector "/" = false →
   detector_conf detector w =
     (Return
        (if bool_decide
              (is_Some (fs w !! ("config/detectors/" +:+ detector +:+ ".yaml")))
         then "config/detectors/" +:+ detector +:+ ".yaml"
         else "config/detectors/" +:+ detector +:+ ".txt"), w))
  ∧ (Str.startswith detector "/" = true →
     detector_conf detector w =
       (Return
          (if bool_decide (is_Some (fs w !! (detector +:+ ".yaml")))
           then detector +:+ ".yaml"
           else detector +:+ ".txt"), w))
  ∧ ∀ argv w0 e w', __init__ argv w0 = (Raise e, w') →
                    exc_class e ≠ "ConfigNotFoundError".
Proof.
  split_and!.
  - intros Hd. by rewrite detector_conf_eq, !join_config.
  - intros Hd. by rewrite detector_conf_eq, !join_config_absolute.
  - intros argv w0 e w' Hr%init_raises Hcls.
    assert ("ConfigNotFoundError" ∉ init_errors) as Hnot
      by by apply (bool_decide_unpack _).
    apply Hnot. by rewrite <-Hcls.
Qed.

Lemma detector_conf_lookup_witness :
  (detector_conf "gatk" (sample_world fastq_cl)).1 =
    Return "config/detectors/gatk.txt"
  ∧ (detector_conf "/tmp/x" (sample_world fastq_cl)).1 = Return "/tmp/x.txt".
Proof.
  destruct (detector_conf_lookup "gatk" (sample_world fastq_cl))
    as (Hrelative & _ & _).
  destruct (detector_conf_lookup "/tmp/x" (sample_world fastq_cl))
    as (_ & Habsolute & _).
  by rewrite Hrelative, Habsolute.
Defined.

(** C7 fails on the code for a name that begins with [/]: [os.path.join]
    drops [config/detectors], and the path chosen for [/tmp/x] is
    [/tmp/x.txt]. *)
Lemma detector_conf_absolute_name :
  detector_conf "/tmp/x" (sample_world fastq_cl) =
    (Return "/tmp/x.txt", sample_world fastq_cl)
  ∧ "/tmp/x.txt" ≠ "config/detectors/" +:+ "/tmp/x" +:+ ".txt".
Proof. by vm_compute. Qed.

(** ** The mapper *)

(** C10: the mapper [__init__] loads, whenever it loads one, is a
    [BWAMapper], and it is the same whatever value [--mapper] was given;
    the instance [__init__] returns holds the mapper so loaded. *)
Theorem mapper_option_ignored args m :
  load_mapper args = Some m →
  m = BWAMapper
  ∧ (∀ v, load_mapper (with_mapper v args) = Some m)
  ∧ (∀ argv w app w', __init__ argv w = (Return app, w') →
                      self_mapper app = load_mapper (self_args app)).
Proof.
  unfold load_mapper, has_bam. intros Hm. split; [|split].
  - destruct (bam args); by simplify_eq.
  - intros v. simpl. exact Hm.
  - intros argv w app w' (a & ? & ? & Hp & _ & _ & _ & _ & ->)%init_returns.
    apply parse_args_returns in Hp as (_ & _ & Hbam & _). simpl. by rewrite Hbam.
Qed.

Lemma mapper_option_ignored_witness :
  mapper args_with_bam = "bowtie2" ∧
  load_mapper args_with_bam = Some BWAMapper ∧
  load_mapper (with_mapper "bwa" args_with_bam) = Some BWAMapper.
Proof.
  destruct (mapper_option_ignored args_with_bam BWAMapper eq_refl) as (_ & Hv & _).
  split; [reflexivity|]. split; [reflexivity|]. apply Hv.
Defined.

(** ** The [bam] attribute *)

(** C8, as the code has it: for a command line the parser has accepted, no
    object [parse_args] returns has a [bam] attribute.  For a single input
    path ending in [.bam], [parse_args] never returns: it raises
    [AttributeError] at [args.bam] when the [--gff] path is an existing
    file, and the [IOError] of the validation before it when it is not.
    With any input that [parse_args] lets through and ["mpileup"] among the
    detectors, [__init__] raises the same [AttributeError] at
    [self.args.bam], provided the working directories, the logger and the
    system report before the detector loop went through. *)
Theorem bam_attribute_never_assigned argv w args :
  ArgumentParser_parse_args w = (Return args, w) →
  (∀ a w', parse_args argv w = (Return a, w') → bam a = None)
  ∧ (∀ reads, input_reads args = [reads] → Str.endswith reads ".bam" = true →
       (∀ a, (parse_args argv w).1 ≠ Return a) ∧
       (fs w !! gff args = Some RegularFile →
        parse_args argv w = (Raise no_attribute_bam, w)) ∧
       (fs w !! gff args ≠ Some RegularFile →
        parse_args argv w =
          (Raise (PyError "IOError" "Invalid GFF filepath specified"), w)))
  ∧ (∀ w1 wd w2 w3,
       parse_args argv w = (Return args, w) →
       create_working_directories args w = (Return wd, w1) →
       initialize_logger wd w1 = (Return (), w2) →
       log_system_info w2 = (Return (), w3) →
       "mpileup" ∈ Str.split "," (variant_detectors args) →
       __init__ argv w = (Raise no_attribute_bam, w3)).
Proof.
  intros Hp. split; [|split].
  - intros a w' Hr. by apply parse_args_returns in Hr as (_ & _ & ? & _).
  - intros reads Hreads Hbam. rewrite (parse_args_unfold _ _ _ Hp), Hreads, Hbam.
    split_and!.
    + intros a. simpl. by destruct (fs w !! gff args) as [[]|].
    + by intros ->.
    + simpl. by destruct (fs w !! gff args) as [[]|].
  - intros w1 wd w2 w3 Hparse Hwd Hlog Hinfo Hmp.
    rewrite (init_after_bootstrap _ _ _ _ _ _ _ Hparse Hwd Hlog Hinfo).
    by rewrite bool_decide_eq_true_2.
Qed.

Lemma bam_attribute_never_assigned_witness :
  parse_args (bam_cl "genes.gff") (sample_world (bam_cl "genes.gff")) =
    (Raise no_attribute_bam, sample_world (bam_cl "genes.gff"))
  ∧ parse_args (bam_cl "missing.gff") (sample_world (bam_cl "missing.gff")) =
      (Raise (PyError "IOError" "Invalid GFF filepath specified"),
       sample_world (bam_cl "missing.gff"))
  ∧ (__init__ default_cl (sample_world default_cl)).1 = Raise no_attribute_bam.
Proof.
  split_and!.
  - eapply (bam_attribute_never_assigned (bam_cl "genes.gff")
              (sample_world (bam_cl "genes.gff"))); by vm_compute.
  - eapply (bam_attribute_never_assigned (bam_cl "missing.gff")
              (sample_world (bam_cl "missing.gff"))); by vm_compute.
  - set (w := sample_world default_cl).
    pose (args := {| input_reads := ["a_1.fastq"; "a_2.fastq"]; output := None;
                     fasta := "genome.fa"; gff := "genes.gff"; mapper := "bwa";
                     variant_detectors := "gatk,mpileup,varscan";
                     working_directory := "output/"; bam := None |}).
    pose (w1 := (create_working_directories args w).2).
    pose (w2 := (initialize_logger "output/20140517134509" w1).2).
    pose (w3 := (log_system_info w2).2).
    assert (__init__ default_cl w = (Raise no_attribute_bam, w3)) as Hinit.
    { eapply (bam_attribute_never_assigned default_cl w args eq_refl);
        try by vm_compute.
      apply (bool_decide_unpack _). by vm_compute. }
    by rewrite Hinit.
Defined.

(** C8 fails on the code when the [--gff] path of a single [.bam] input is
    not an existing file: [parse_args] raises [IOError], not
    [AttributeError]. *)
Lemma parse_args_bam_missing_gff :
  arg_input_reads (bam_cl "missing.gff") = ["aln.bam"]
  ∧ Str.endswith "aln.bam" ".bam" = true
  ∧ parse_args (bam_cl "missing.gff") (sample_world (bam_cl "missing.gff")) =
      (Raise (PyError "IOError" "Invalid GFF filepath specified"),
       sample_world (bam_cl "missing.gff")).
Proof. by vm_compute. Qed.

Lemma parse_args_IOError_iff_witness :
  ∃ msg, (parse_args three_reads_cl (sample_world three_reads_cl)).1 =
           Raise (PyError "IOError" msg).
Proof.
  eapply (parse_args_IOError_iff three_reads_cl (sample_world three_reads_cl)).
  - by vm_compute.
  - left. simpl. lia.
Defined.

(** C9 fails on the code for a command line the parser refuses: with three
    input paths and no [--fasta], [parse_args] ends with the parser's
    [SystemExit(2)], not with [IOError]. *)
Lemma parse_args_three_reads_no_fasta :
  length (arg_input_reads three_reads_no_fasta_cl) = 3
  ∧ parse_args three_reads_no_fasta_cl (sample_world three_reads_no_fasta_cl) =
      (Raise (SystemExit 2), sample_world three_reads_no_fasta_cl).
Proof. by vm_compute. Qed.

(** ** The working directory *)

(** Linear arithmetic with division and remainder by constants. *)
Ltac div_mod_lia := zify; Z.div_mod_to_equations; lia.

Lemma digit_inj a b : Str.digit a = Str.digit b → a mod 10 = b mod 10.
Proof.
  unfold Str.digit.
  pose proof (Nat.mod_upper_bound a 10 ltac:(done)) as Ha.
  pose proof (Nat.mod_upper_bound b 10 ltac:(done)) as Hb.
  revert Ha Hb. generalize (a mod 10) (b mod 10). intros x y Hx Hy.
  do 10 (destruct x as [|x]; [do 10 (destruct y as [|y]; [done|]); lia|]). lia.
Qed.

Lemma digit_not_sep a : Str.digit a ≠ "/"%char.
Proof.
  unfold Str.digit. generalize (a mod 10). intros x.
  do 9 (destruct x as [|x]; [done|]). done.
Qed.

Lemma string_cons_app a s t : String a s +:+ t = String a (s +:+ t).
Proof. done. Qed.

Lemma string_nil_app t : "" +:+ t = t.
Proof. done. Qed.

Lemma app_inj_length u v s t :
  String.length u = String.length v → u +:+ s = v +:+ t → u = v ∧ s = t.
Proof.
  revert v. induction u as [|a u IH]; intros [|b v] Hlen; try done.
  rewrite !string_cons_app. intros [= -> Heq].
  destruct (IH v) as [-> ->]; [by simplify_eq/=|done..].
Qed.

Lemma pad2_inj a b : a < 100 → b < 100 → Str.pad2 a = Str.pad2 b → a = b.
Proof.
  unfold Str.pad2. intros Ha Hb.
  remember (a / 10) as qa eqn:Hqa. remember (b / 10) as qb eqn:Hqb.
  intros [= H1%digit_inj H2%digit_inj]. subst qa qb. div_mod_lia.
Qed.

Lemma pad4_inj a b : a < 10 * 1000 → b < 10 * 1000 → Str.pad4 a = Str.pad4 b → a = b.
Proof.
  unfold Str.pad4, Str.pad2. intros Ha Hb.
  remember (a / 1000) as a3 eqn:Ha3. remember (b / 1000) as b3 eqn:Hb3.
  remember (a / 100) as a2 eqn:Ha2. remember (b / 100) as b2 eqn:Hb2.
  remember (a / 10) as a1 eqn:Ha1. remember (b / 10) as b1 eqn:Hb1.
  intros [= H3%digit_inj H2%digit_inj H1%digit_inj H0%digit_inj].
  subst a3 b3 a2 b2 a1 b1. div_mod_lia.
Qed.

(** The timestamp in the name of the working directory determines the
    instant to the second, and no further. *)
Lemma strftime_compact_inj d1 d2 :
  well_formed d1 → well_formed d2 →
  strftime_compact d1 = strftime_compact d2 ↔ same_second d1 d2.
Proof.
  intros (Hy1 & Hm1 & Hd1 & Hh1 & Hmi1 & Hs1 & _) (Hy2 & Hm2 & Hd2 & Hh2 & Hmi2 & Hs2 & _).
  unfold strftime_compact, same_second. split.
  - intros Heq.
    apply app_inj_length in Heq as [Hy%pad4_inj Heq]; [|lia..|done].
    apply app_inj_length in Heq as [Hm%pad2_inj Heq]; [|lia..|done].
    apply app_inj_length in Heq as [Hd%pad2_inj Heq]; [|lia..|done].
    apply app_inj_length in Heq as [Hh%pad2_inj Heq]; [|lia..|done].
    apply app_inj_length in Heq as [Hmi%pad2_inj Hs%pad2_inj]; [|lia..|done].
    done.
  - by intros (-> & -> & -> & -> & -> & ->).
Qed.

Lemma strftime_compact_relative d : Str.startswith (strftime_compact d) "/" = false.
Proof.
  unfold strftime_compact, Str.pad4. rewrite string_cons_app. simpl.
  destruct (decide _) as [Heq|]; [|done]. by apply digit_not_sep in Heq.
Qed.

Lemma join_relative_inj wd s1 s2 :
  Str.startswith s1 "/" = false → Str.startswith s2 "/" = false →
  os_path.join wd [s1] = os_path.join wd [s2] → s1 = s2.
Proof.
  unfold os_path.join. cbn [foldl]. unfold os_path.join2. intros -> ->.
  destruct (decide (wd = "")); [done|].
  destruct (Str.endswith wd "/"); intros Heq.
  - by apply (inj _) in Heq.
  - by do 2 apply (inj _) in Heq.
Qed.

(** C6 fails on the code: a second run started 750 ms after the first, in
    the file system the first left, is given the first run's working
    directory. *)
Lemma two_runs_share_working_directory :
  now (sample_world fastq_cl) ≠ now (second_world fastq_cl) ∧
  (create_working_directories fastq_args (sample_world fastq_cl)).1 =
    Return "output/20140517134509" ∧
  (create_working_directories fastq_args (second_world fastq_cl)).1 =
    Return "output/20140517134509".
Proof. by vm_compute. Qed.

(** ** Further properties of [__init__] *)

(** X1: an instance [__init__] returns has no [bam] attribute in its
    arguments, no mapper, no detector and no alignment, and ["mpileup"] is
    not among its detector names. *)
Theorem init_instance_shape argv w app w' :
  __init__ argv w = (Return app, w') →
  bam (self_args app) = None ∧ self_mapper app = None ∧
  self_detectors app = [] ∧ self_bam app = None ∧
  "mpileup" ∉ Str.split "," (variant_detectors (self_args app)).
Proof.
  intros (args & ? & ? & Hparse & _ & _ & _ & Hmp & ->)%init_returns.
  by apply parse_args_returns in Hparse as (_ & _ & Hbam & _).
Qed.

Lemma init_instance_shape_witness :
  bam (self_args fastq_app) = None ∧ self_mapper fastq_app = None ∧
  self_detectors fastq_app = [] ∧ self_bam fastq_app = None ∧
  "mpileup" ∉ Str.split "," (variant_detectors (self_args fastq_app)).
Proof.
  apply (init_instance_shape fastq_cl (sample_world fastq_cl) fastq_app
           (__init__ fastq_cl (sample_world fastq_cl)).2).
  by vm_compute.
Defined.

(** X2: with the default [--variant-detectors], ["gatk,mpileup,varscan"],
    [__init__] never returns an instance: it ends with an exception. *)
Theorem init_default_detectors_raises argv w :
  opt_variant_detectors (sys_argv w) = None →
  ∃ e w', __init__ argv w = (Raise e, w').
Proof.
  intros Hdef. destruct (__init__ argv w) as [[app|e] w'] eqn:Hinit; [|eauto].
  apply init_returns in Hinit as (args & ? & ? & Hparse & _ & _ & _ & Hmp & _).
  apply parse_args_returns in Hparse as (_ & Hp & _).
  unfold ArgumentParser_parse_args in Hp. rewrite Hdef in Hp.
  destruct (arg_input_reads _); [done|].
  destruct (opt_fasta _); [|done]. destruct (opt_gff _); [|done].
  simplify_eq/=. exfalso. apply Hmp. by apply (bool_decide_unpack _).
Qed.

Lemma init_default_detectors_raises_witness :
  ∃ e w', __init__ default_cl (sample_world default_cl) = (Raise e, w').
Proof. by apply init_default_detectors_raises. Defined.

(** * Further properties of the driver *)

(** ** Which command lines [parse_args] accepts *)

(** X3: [parse_args] returns exactly when the parser accepts the command
    line with at most two input paths, the [--gff] path is an existing
    regular file, and the input is not a single path ending in [.bam]; it
    then returns the parser's object and leaves the state alone.  So a
    single [.bam] alignment is never accepted. *)
Theorem parse_args_accepts_iff argv w args w' :
  parse_args argv w = (Return args, w') ↔
  ArgumentParser_parse_args w = (Return args, w') ∧
  length (input_reads args) ≤ 2 ∧
  fs w !! gff args = Some RegularFile ∧
  ∀ reads, input_reads args = [reads] → Str.endswith reads ".bam" = false.
Proof.
  split.
  - intros Hr. pose proof Hr as Hr'.
    apply parse_args_returns in Hr' as (-> & Hp & _ & Hlen & Hgff).
    split_and!; try done.
    intros reads Hreads.
    rewrite (parse_args_unfold _ _ _ Hp), Hgff, Hreads in Hr.
    destruct (2 <? _); [done|]. by destruct (Str.endswith reads ".bam").
  - intros (Hp & Hlen & Hgff & Hreads).
    destruct (ArgumentParser_parse_args_inv _ _ _ Hp) as (-> & _).
    rewrite (parse_args_unfold _ _ _ Hp), Hgff.
    destruct (2 <? _) eqn:Hlt; [apply Nat.ltb_lt in Hlt; lia|].
    destruct (input_reads args) as [|r1 [|r2 rest]]; try done.
    by rewrite (Hreads r1 eq_refl).
Qed.

(** ** The system report *)

Lemma bind_eq_Raise {A B} (m : Py A) (k : A → Py B) w e w1 :
  m w = (Raise e, w1) → bind m k w = (Raise e, w1).
Proof. unfold bind. by intros ->. Qed.

(** The import of an optional dependency inside [try ... except ImportError]
    always yields a version text and leaves the state alone. *)
Lemma optional_version m w :
  ∃ v, try_except (import_version m) "ImportError" (ret "NOT INSTALLED") w =
         (Return v, w).
Proof.
  unfold try_except, import_version.
  destruct (module_version (platform w) !! m); by eexists.
Qed.

(** [log_system_info] after the import of the [eve] version: it fails on
    Linux without [platform.linux_distribution] and returns otherwise. *)
Lemma log_system_info_with_version w v :
  module_version (platform w) !! "eve" = Some v →
  if decide (system (platform w) = "Linux" ∧
             linux_distribution (platform w) = None)
  then ∃ msg w', log_system_info w = (Raise (PyError "AttributeError" msg), w')
  else ∃ w', log_system_info w = (Return (), w').
Proof.
  intros Hv. unfold log_system_info.
  rewrite (bind_eq_Return _ _ w v w) by (unfold import_version; by rewrite Hv).
  unfold logging_info, logging_debug.
  assert (∀ msg w0, platform w0 = platform w → ∃ w',
    (logging_log DEBUG msg ;;;
     logging_log DEBUG ("Architecture: " +:+ architecture (platform w)) ;;;
     logging_log DEBUG ("Python " +:+ python_version (platform w)) ;;;
     numpy_version <-
       try_except (import_version "numpy") "ImportError" (ret "NOT INSTALLED") ;;
     scipy_version <-
       try_except (import_version "scipy") "ImportError" (ret "NOT INSTALLED") ;;
     sklearn_version <-
       try_except (import_version "sklearn") "ImportError" (ret "NOT INSTALLED") ;;
     yaml_version <-
       try_except (import_version "yaml") "ImportError" (ret "NOT INSTALLED") ;;
     logging_log DEBUG ("NumPy: " +:+ numpy_version) ;;;
     logging_log DEBUG ("SciPy: " +:+ scipy_version) ;;;
     logging_log DEBUG ("Scikit-Learn: " +:+ sklearn_version) ;;;
     logging_log DEBUG ("PyYAML: " +:+ yaml_version)) w0 = (Return (), w'))
    as Hrest.
  { intros msg w0 _. unfold bind at 1. unfold logging_log at 1.
    unfold bind at 1. unfold logging_log at 1.
    unfold bind at 1. unfold logging_log at 1.
    repeat (match goal with
            | |- context [bind (try_except (import_version ?m) _ _) _ ?w1] =>
                destruct (optional_version m w1) as [? Hv'];
                rewrite (bind_eq_Return _ _ _ _ _ Hv'); clear Hv'
            end).
    by eexists. }
  destruct (decide _) as [[Hlinux Hdist]|Hother].
  - unfold bind at 1. unfold logging_log at 1.
    unfold bind at 1. unfold utcnow at 1.
    unfold bind at 1. unfold logging_log at 1.
    unfold bind at 1. unfold get at 1. cbn [platform].
    rewrite decide_True, Hdist by done. unfold bind, raise. by eexists _, _.
  - unfold bind at 1. unfold logging_log at 1.
    unfold bind at 1. unfold utcnow at 1.
    unfold bind at 1. unfold logging_log at 1.
    unfold bind at 1. unfold get at 1. cbn [platform].
    destruct (decide (system (platform w) = "Linux")) as [Hlinux|Hnot].
    + destruct (linux_distribution (platform w)) as [parts|] eqn:Hdist;
        [by apply Hrest|by destruct Hother].
    + destruct (decide (system (platform w) = "Darwin")); [by apply Hrest|].
      destruct (decide (system (platform w) = "Windows")); by apply Hrest.
Qed.

(** [log_system_info] when the [eve] package has no [__version__]. *)
Lemma log_system_info_no_version w :
  module_version (platform w) !! "eve" = None →
  log_system_info w = (Raise (PyError "ImportError" "eve"), w).
Proof.
  intros Hv. unfold log_system_info.
  apply bind_eq_Raise. unfold import_version. by rewrite Hv.
Qed.

(** X4: [log_system_info] fails in two cases only: with an [ImportError]
    when the [eve] package carries no [__version__], and with an
    [AttributeError] when that import went through and the system is Linux on
    an interpreter whose [platform] module has no [linux_distribution].  In
    every other case it returns, whichever of numpy, scipy, sklearn and yaml
    are installed. *)
Theorem log_system_info_outcome w :
  ((∃ w', log_system_info w = (Return (), w')) ↔
     is_Some (module_version (platform w) !! "eve") ∧
     ¬ (system (platform w) = "Linux" ∧ linux_distribution (platform w) = None))
  ∧ ((∃ msg w', log_system_info w = (Raise (PyError "ImportError" msg), w')) ↔
     module_version (platform w) !! "eve" = None)
  ∧ ((∃ msg w', log_system_info w = (Raise (PyError "AttributeError" msg), w')) ↔
     is_Some (module_version (platform w) !! "eve") ∧
     system (platform w) = "Linux" ∧ linux_distribution (platform w) = None).
Proof.
  destruct (module_version (platform w) !! "eve") as [v|] eqn:Hv.
  - pose proof (log_system_info_with_version w v Hv) as Hcases.
    destruct (decide _) as [Hlinux|Hother].
    + destruct Hcases as (msg & w' & Hr). rewrite Hr. split_and!; split.
      * by intros [? [=]].
      * by intros [_ []].
      * by intros (? & ? & [=]).
      * done.
      * done.
      * by eexists _, _.
    + destruct Hcases as (w' & Hr). rewrite Hr. split_and!; split.
      * done.
      * by eexists.
      * by intros (? & ? & [=]).
      * done.
      * by intros (? & ? & [=]).
      * by intros [_ ?].
  - rewrite (log_system_info_no_version w Hv). split_and!; split.
    + by intros [? [=]].
    + by intros [[? [=]] _].
    + done.
    + by eexists _, _.
    + by intros (? & ? & [=]).
    + by intros [[? [=]] _].
Qed.

(** ** The directories of a run *)

Lemma rev_app_app s1 s2 acc :
  String.rev_app (s1 +:+ s2) acc = String.rev_app s2 (String.rev_app s1 acc).
Proof.
  revert acc. induction s1 as [|a s1 IH]; intros acc; [done|].
  rewrite string_cons_app. simpl. apply IH.
Qed.

Lemma string_app_nil s : s +:+ "" = s.
Proof.
  induction s as [|a s IH]; [done|]. by rewrite string_cons_app, IH.
Qed.

(** [split_rev] goes over a reversed piece without separator and keeps it. *)
Lemma split_rev_no_sep t r acc :
  no_sep t →
  os_path.split_rev (String.rev_app t r) acc = os_path.split_rev r (t +:+ acc).
Proof.
  revert r acc. induction t as [|c t IH]; intros r acc Ht; [done|].
  destruct Ht as [Hc Ht]. simpl. rewrite IH by done. simpl.
  rewrite decide_False by done. by rewrite string_cons_app.
Qed.

Lemma endswith_sep path :
  Str.endswith path "/" = true → ∃ r, String.rev path = String os_path.sep r.
Proof.
  unfold Str.endswith. simpl. destruct (String.rev path) as [|a r]; [done|].
  simpl. destruct (decide _) as [->|]; [|done]. by eexists.
Qed.

Lemma no_sep_relative b : no_sep b → Str.startswith b "/" = false.
Proof.
  destruct b as [|a b]; [done|]. intros [Ha _]. simpl.
  by rewrite decide_False.
Qed.

(** The reversed path [os.path.join] gives for a piece without separator:
    the piece, then nothing or a separator. *)
Lemma split_rev_join2 path b :
  no_sep b →
  ∃ r, os_path.split_rev (String.rev (os_path.join2 path b)) "" = (r, b) ∧
       (r = "" ∨ ∃ r', r = String os_path.sep r').
Proof.
  intros Hb. unfold os_path.join2. rewrite no_sep_relative by done.
  unfold String.rev. destruct (decide (path = "")) as [->|Hpath].
  - exists "". rewrite split_rev_no_sep, string_app_nil by done. eauto.
  - destruct (Str.endswith path "/") eqn:Hend.
    + apply endswith_sep in Hend as [r Hr]. exists (String os_path.sep r).
      rewrite rev_app_app, split_rev_no_sep, string_app_nil by done.
      unfold String.rev in Hr. rewrite Hr. simpl. eauto.
    + exists (String os_path.sep (String.rev path)).
      rewrite !rev_app_app, split_rev_no_sep, string_app_nil by done.
      simpl. eauto.
Qed.

(** The last component of a joined path is the piece joined. *)
Lemma split_join2_tail path b :
  no_sep b → (os_path.split (os_path.join2 path b)).2 = b.
Proof.
  intros Hb. destruct (split_rev_join2 path b Hb) as (r & Hr & _).
  unfold os_path.split. by rewrite Hr.
Qed.

#[local] Instance entries_kept_refl : Reflexive entries_kept.
Proof. by intros w p k. Qed.

#[local] Instance entries_kept_trans : Transitive entries_kept.
Proof. intros w1 w2 w3 H12 H23 p k ?. by apply H23, H12. Qed.

#[local] Instance env_kept_refl : Reflexive env_kept.
Proof. by intros w. Qed.

#[local] Instance env_kept_trans : Transitive env_kept.
Proof.
  intros w1 w2 w3 (? & ? & ? & ?) (? & ? & ? & ?). repeat split; congruence.
Qed.

Lemma fs_kept_entries_kept w w' : fs_kept w w' → entries_kept w w'.
Proof. unfold fs_kept, entries_kept. by intros ->. Qed.

(** What a successful [os.mkdir] did. *)
Lemma mkdir_returns name w w' :
  mkdir name w = (Return (), w') →
  fs w !! name = None ∧ fs w' = <[name := Directory]> (fs w).
Proof.
  unfold mkdir. destruct (fs w !! name); [by intros [=]|].
  destruct (decide _); [by intros [= <-]|].
  destruct (fs w !! _) as [[]|]; [by intros [=]| |by intros [=]].
  by intros [= <-].
Qed.

Lemma mkdir_entries_kept name : preserves entries_kept (mkdir name).
Proof.
  intros w r w'. unfold mkdir. destruct (fs w !! name) eqn:Hname.
  { by intros [= _ <-]. }
  assert (entries_kept w (set_fs (<[name:=Directory]> (fs w)) w)) as Hins.
  { intros p k Hp. simpl. rewrite lookup_insert_ne; [done|]. congruence. }
  destruct (decide _); [by intros [= _ <-]|].
  destruct (fs w !! (os_path.split name).1) as [[]|]; by intros [= _ <-].
Qed.

Lemma mkdir_env_kept name : preserves env_kept (mkdir name).
Proof.
  intros w r w'. unfold mkdir. destruct (fs w !! name).
  { by intros [= _ <-]. }
  destruct (decide _); [by intros [= _ <-]|].
  destruct (fs w !! _) as [[]|]; by intros [= _ <-].
Qed.

Lemma makedirs_from_entries_kept fuel :
  ∀ name, preserves entries_kept (makedirs_from fuel name).
Proof.
  induction fuel as [|fuel IH]; intros name; simpl;
    repeat first [apply mkdir_entries_kept | apply IH | py_step].
Qed.

Lemma makedirs_from_env_kept fuel :
  ∀ name, preserves env_kept (makedirs_from fuel name).
Proof.
  induction fuel as [|fuel IH]; intros name; simpl;
    repeat first [apply mkdir_env_kept | apply IH | py_step].
Qed.

(** A successful [os.makedirs] of a path whose last component is neither
    empty nor [.] leaves a directory there. *)
Lemma makedirs_from_returns fuel name w w' :
  (os_path.split name).2 ≠ "" → (os_path.split name).2 ≠ "." →
  makedirs_from fuel name w = (Return (), w') →
  fs w' !! name = Some Directory.
Proof.
  intros Hempty Hdot Hr.
  assert (∃ w1, mkdir name w1 = (Return (), w')) as [w1 Hmk].
  { destruct fuel as [|fuel]; simpl in Hr;
      destruct (os_path.split name) as [head tail]; simpl in *;
      rewrite decide_False in Hr by done;
      apply bind_Return in Hr as (known & w1 & _ & Hr).
    - destruct (_ && _); eauto.
    - destruct (_ && _); [|eauto].
      apply bind_Return in Hr as ([] & w2 & _ & Hr).
      rewrite decide_False in Hr by done. eauto. }
  apply mkdir_returns in Hmk as [_ ->]. by rewrite lookup_insert_eq.
Qed.

Lemma utcnow_env_kept : preserves env_kept utcnow.
Proof. by intros w r w' [= _ <-]. Qed.

Lemma create_working_directories_entries_kept args :
  preserves entries_kept (create_working_directories args).
Proof.
  unfold create_working_directories, makedirs.
  repeat first [apply (preserves_impl _ _ _ fs_kept_entries_kept), utcnow_fs_kept
               | apply for_each_preserves; [apply _..|intros ?]
               | apply makedirs_from_entries_kept | py_step].
Qed.

Lemma create_working_directories_env_kept args :
  preserves env_kept (create_working_directories args).
Proof.
  unfold create_working_directories, makedirs.
  repeat first [apply utcnow_env_kept
               | apply for_each_preserves; [apply _..|intros ?]
               | apply makedirs_from_env_kept | py_step].
Qed.

(** One round of the loop of [create_working_directories]: when it returns,
    the subdirectory is there. *)
Lemma make_subdir_returns wd subdir w w' :
  no_sep subdir → subdir ≠ "" → subdir ≠ "." →
  (present <- isdir (os_path.join wd [subdir]) ;;
   if negb present then makedirs (os_path.join wd [subdir]) else ret ()) w
    = (Return (), w') →
  fs w' !! os_path.join wd [subdir] = Some Directory.
Proof.
  intros Hsep Hempty Hdot (present & w1 & Hdir & Hr)%bind_Return.
  unfold isdir, get in Hdir. simplify_eq. case_bool_decide as Hp; simpl in Hr.
  - unfold ret in Hr. by simplify_eq.
  - eapply makedirs_from_returns; [..|done];
      simpl; by rewrite split_join2_tail.
Qed.

Lemma make_subdir_entries_kept path :
  preserves entries_kept
    (present <- isdir path ;; if negb present then makedirs path else ret ()).
Proof.
  unfold makedirs. repeat first [apply makedirs_from_entries_kept | py_step].
Qed.

(** The two rounds of the loop behind a directory
    [create_working_directories] returned. *)
Lemma create_working_directories_rounds args w wd w' :
  create_working_directories args w = (Return wd, w') →
  ∃ w1 w2,
    fs w1 = fs w ∧
    (present <- isdir (os_path.join wd ["mapped"]) ;;
     if negb present then makedirs (os_path.join wd ["mapped"]) else ret ()) w1
      = (Return (), w2) ∧
    (present <- isdir (os_path.join wd ["vcf"]) ;;
     if negb present then makedirs (os_path.join wd ["vcf"]) else ret ()) w2
      = (Return (), w').
Proof.
  intros Hr. pose proof (create_working_directories_returns _ _ _ _ Hr) as Hwd.
  unfold create_working_directories in Hr.
  apply bind_Return in Hr as (d & w1 & Hnow & Hr).
  rewrite utcnow_eq in Hnow. injection Hnow as <- Hw1.
  apply bind_Return in Hr as ([] & w2 & Hloop & Hret).
  injection Hret as _ <-. rewrite <-Hwd in Hloop. simpl in Hloop.
  apply bind_Return in Hloop as ([] & w3 & Hmapped & Hloop).
  apply bind_Return in Hloop as ([] & w4 & Hvcf & Hret).
  injection Hret as <-. exists w1, w3. by subst w1.
Qed.

(** When [create_working_directories] returns, both subdirectories are
    there. *)
Lemma create_working_directories_subdirs args w wd w' :
  create_working_directories args w = (Return wd, w') →
  fs w' !! os_path.join wd ["mapped"] = Some Directory ∧
  fs w' !! os_path.join wd ["vcf"] = Some Directory.
Proof.
  intros (w1 & w2 & _ & Hmapped & Hvcf)%create_working_directories_rounds.
  split.
  - apply make_subdir_returns in Hmapped; [|by repeat split|done..].
    apply make_subdir_entries_kept in Hvcf. by apply Hvcf.
  - by apply make_subdir_returns in Hvcf; [|by repeat split|done..].
Qed.

(** X5: when [create_working_directories] returns, the working directory it
    returns holds the directories [mapped] and [vcf], whether the call made
    them or found them. *)
Theorem create_working_directories_makes_subdirs args w wd w' :
  create_working_directories args w = (Return wd, w') →
  fs w' !! os_path.join wd ["mapped"] = Some Directory ∧
  fs w' !! os_path.join wd ["vcf"] = Some Directory.
Proof.
  intros (w1 & w2 & _ & Hmapped & Hvcf)%create_working_directories_rounds.
  apply make_subdir_returns in Hmapped; [|by repeat split|done..].
  pose proof (make_subdir_entries_kept _ _ _ _ Hvcf) as Hkept.
  apply make_subdir_returns in Hvcf; [|by repeat split|done..].
  split; [by apply Hkept|done].
Qed.

Lemma create_working_directories_makes_subdirs_witness :
  fs (create_working_directories fastq_args (sample_world fastq_cl)).2
    !! "output/20140517134509/mapped" = Some Directory ∧
  fs (create_working_directories fastq_args (sample_world fastq_cl)).2
    !! "output/20140517134509/vcf" = Some Directory.
Proof.
  apply (create_working_directories_makes_subdirs fastq_args
           (sample_world fastq_cl) "output/20140517134509").
  by vm_compute.
Defined.

Lemma same_second_strftime_compact d1 d2 :
  same_second d1 d2 → strftime_compact d1 = strftime_compact d2.
Proof.
  intros (Hy & Hm & Hd & Hh & Hmin & Hs). unfold strftime_compact.
  by rewrite Hy, Hm, Hd, Hh, Hmin, Hs.
Qed.

(** [create_working_directories] where both subdirectories of the working
    directory of this second exist: it returns that directory and leaves the
    file system alone. *)
Lemma create_working_directories_present args w :
  let wd := os_path.join (working_directory args) [strftime_compact (now w)] in
  fs w !! os_path.join wd ["mapped"] = Some Directory →
  fs w !! os_path.join wd ["vcf"] = Some Directory →
  ∃ w', create_working_directories args w = (Return wd, w') ∧ fs w' = fs w.
Proof.
  intros wd Hmapped Hvcf. unfold create_working_directories.
  rewrite (bind_eq_Return _ _ _ _ _ (utcnow_eq w)). fold (now w). fold wd.
  cbn [for_each]. unfold bind, isdir, get. cbn [fs].
  rewrite bool_decide_eq_true_2 by done. simpl.
  rewrite bool_decide_eq_true_2 by done. simpl. by eexists.
Qed.

(** C6, as the code has it: the working directory of a run is the
    [--working-directory] joined with the UTC time of the run to the
    second; two runs given the same [--working-directory], whatever their
    other arguments, get the same working directory exactly when they start
    within the same second; and then the later run, in a file system that
    holds what the earlier one left, finds the directories and creates
    nothing. *)
Theorem working_dir_shared_iff_same_second args1 args2 w1 w2 d1 d2 w1' w2' :
  well_formed (now w1) → well_formed (now w2) →
  working_directory args1 = working_directory args2 →
  create_working_directories args1 w1 = (Return d1, w1') →
  create_working_directories args2 w2 = (Return d2, w2') →
  d1 = os_path.join (working_directory args1) [strftime_compact (now w1)] ∧
  d2 = os_path.join (working_directory args2) [strftime_compact (now w2)] ∧
  (d1 = d2 ↔ same_second (now w1) (now w2)) ∧
  (same_second (now w1) (now w2) → entries_kept w1' w2 → fs w2' = fs w2).
Proof.
  intros Hwf1 Hwf2 Hdir Hr1 Hr2.
  pose proof (create_working_directories_returns _ _ _ _ Hr1) as Hd1.
  pose proof (create_working_directories_returns _ _ _ _ Hr2) as Hd2.
  fold (now w1) in Hd1. fold (now w2) in Hd2. split_and!; [done..| |].
  - rewrite Hd1, Hd2, Hdir, <-(strftime_compact_inj _ _ Hwf1 Hwf2).
    split; [|by intros ->].
    apply join_relative_inj; apply strftime_compact_relative.
  - intros Hsame Hkept.
    apply create_working_directories_subdirs in Hr1 as [Hmapped Hvcf].
    rewrite Hd1, Hdir, (same_second_strftime_compact _ _ Hsame)
      in Hmapped, Hvcf.
    destruct (create_working_directories_present args2 w2)
      as (w' & Hr & Hfs); [by apply Hkept..|].
    rewrite Hr2 in Hr. by injection Hr as _ <-.
Qed.

Lemma working_dir_shared_iff_same_second_witness :
  ("output/20140517134509" = "output/20140517134509" ↔
     same_second (now (sample_world fastq_cl)) (now (second_world fastq_cl)))
  ∧ fs (create_working_directories (with_mapper "bowtie2" fastq_args)
          (second_world fastq_cl)).2 = fs (second_world fastq_cl).
Proof.
  assert (well_formed (now (sample_world fastq_cl))) as Hwf1
    by (repeat split; simpl; lia).
  assert (well_formed (now (second_world fastq_cl))) as Hwf2
    by (repeat split; simpl; lia).
  assert (create_working_directories fastq_args (sample_world fastq_cl) =
            (Return "output/20140517134509",
             (create_working_directories fastq_args (sample_world fastq_cl)).2))
    as Hr1 by by vm_compute.
  assert (create_working_directories (with_mapper "bowtie2" fastq_args)
            (second_world fastq_cl) =
            (Return "output/20140517134509",
             (create_working_directories (with_mapper "bowtie2" fastq_args)
                (second_world fastq_cl)).2))
    as Hr2 by by vm_compute.
  assert (same_second (now (sample_world fastq_cl))
            (now (second_world fastq_cl))) as Hsame by by repeat split.
  assert (entries_kept
            (create_working_directories fastq_args (sample_world fastq_cl)).2
            (second_world fastq_cl)) as Hkept.
  { intros p k.
    apply (map_Forall_lookup_1
             (λ p k, fs (second_world fastq_cl) !! p = Some k)).
    apply (bool_decide_unpack _). by vm_compute. }
  destruct (working_dir_shared_iff_same_second _ _ _ _ _ _ _ _
              Hwf1 Hwf2 eq_refl Hr1 Hr2) as (_ & _ & Hiff & Hreuse).
  exact (conj Hiff (Hreuse Hsame Hkept)).
Defined.

(** X6: a call of [create_working_directories] that falls in the second of
    an earlier call with the same [--working-directory], whatever the other
    arguments of the two calls, in a file system that still holds what the
    earlier call left, raises nothing: it returns the earlier call's
    directory and changes nothing in the file system. *)
Theorem create_working_directories_again args1 args2 w wd w1 w2 :
  working_directory args1 = working_directory args2 →
  create_working_directories args1 w = (Return wd, w1) →
  entries_kept w1 w2 → same_second (now w) (now w2) →
  ∃ w2', create_working_directories args2 w2 = (Return wd, w2') ∧ fs w2' = fs w2.
Proof.
  intros Hdir Hr Hkept Hsame.
  pose proof (create_working_directories_returns _ _ _ _ Hr) as Hwd.
  apply create_working_directories_subdirs in Hr as [Hmapped Hvcf].
  fold (now w) in Hwd.
  rewrite Hdir, (same_second_strftime_compact _ _ Hsame) in Hwd.
  rewrite Hwd in Hmapped, Hvcf |- *.
  apply create_working_directories_present; by apply Hkept.
Qed.

Lemma create_working_directories_again_witness :
  ∃ w2', create_working_directories args_with_bam (second_world fastq_cl)
           = (Return "output/20140517134509", w2') ∧
         fs w2' = fs (second_world fastq_cl).
Proof.
  apply (create_working_directories_again fastq_args args_with_bam
           (sample_world fastq_cl) "output/20140517134509"
           (create_working_directories fastq_args (sample_world fastq_cl)).2).
  - done.
  - by vm_compute.
  - intros p k.
    apply (map_Forall_lookup_1
             (λ p k, fs (second_world fastq_cl) !! p = Some k)).
    apply (bool_decide_unpack _). by vm_compute.
  - by vm_compute.
Defined.

(** ** The logger *)

(** [logging.basicConfig] on a root logger without handler: it opens the
    log file, or fails and changes nothing. *)
Lemma basicConfig_fresh path w r w' :
  log_file w = None → consoles w = [] →
  basicConfig path w = (r, w') →
  match r with
  | Return _ =>
      fs w !! path ≠ Some Directory ∧
      fs w' = <[path := RegularFile]> (fs w) ∧
      log_file w' = Some path ∧ consoles w' = [] ∧ platform w' = platform w
  | Raise _ => w' = w
  end.
Proof.
  intros Hlog Hcons. unfold basicConfig. rewrite Hlog, Hcons.
  destruct (fs w !! path) as [[]|] eqn:Hpath;
    [by intros [= <- <-]|by intros [= <- <-]|].
  destruct (decide _); [by intros [= <- <-]|].
  destruct (fs w !! (os_path.split path).1) as [[]|]; by intros [= <- <-].
Qed.

(** [logging.basicConfig] on a root logger that has a handler does
    nothing. *)
Lemma basicConfig_configured path w :
  log_file w ≠ None ∨ consoles w ≠ [] → basicConfig path w = (Return (), w).
Proof.
  unfold basicConfig. intros [?|?]; destruct (log_file w); try done;
    by destruct (consoles w).
Qed.

Lemma basicConfig_entries_kept path : preserves entries_kept (basicConfig path).
Proof.
  intros w r w' Hr.
  destruct (decide (log_file w = None ∧ consoles w = [])) as [[Hlog Hcons]|Hno].
  - apply basicConfig_fresh in Hr; [|done..]. destruct r; [|by subst].
    destruct Hr as (Hdir & Hfs & _). intros p k Hp. rewrite Hfs.
    destruct (decide (p = path)) as [->|]; [|by rewrite lookup_insert_ne].
    rewrite lookup_insert_eq. destruct k; [done|by destruct Hdir].
  - rewrite basicConfig_configured in Hr; [by simplify_eq|].
    destruct (log_file w); [by left|]. right. intros ?. by apply Hno.
Qed.

Lemma initialize_logger_entries_kept wd :
  preserves entries_kept (initialize_logger wd).
Proof.
  unfold initialize_logger. py_step; [apply basicConfig_entries_kept|].
  by intros w r w' [= _ <-] p k.
Qed.

Lemma basicConfig_platform path w r w' :
  basicConfig path w = (r, w') → platform w' = platform w.
Proof.
  unfold basicConfig. destruct (log_file w); [by intros [= _ <-]|].
  destruct (consoles w); [|by intros [= _ <-]].
  destruct (fs w !! path) as [[]|]; [by intros [= _ <-]..|].
  destruct (decide _); [by intros [= _ <-]|].
  destruct (fs w !! (os_path.split path).1) as [[]|]; by intros [= _ <-].
Qed.

Lemma initialize_logger_platform wd w r w' :
  initialize_logger wd w = (r, w') → platform w' = platform w.
Proof.
  unfold initialize_logger, bind, addHandler.
  destruct (basicConfig _ w) as [[[]|e] w1] eqn:Hb; intros [= _ <-]; simpl;
    by apply basicConfig_platform in Hb.
Qed.

(** ** The start-up as a whole *)

Lemma load_detectors_world args wd names :
  ∀ loaded w r w', load_detectors args wd names loaded w = (r, w') → w' = w.
Proof.
  induction names as [|d names IH]; intros loaded w r w'; cbn [load_detectors].
  - by intros [= _ <-].
  - rewrite (bind_eq_Return _ _ _ _ _ (detector_conf_eq d w)).
    unfold bind, getattr_bam.
    destruct (decide (d = "mpileup")); [destruct (bam args)|]; simpl;
      first [apply IH | by intros [= _ <-]].
Qed.

Lemma logging_log_env_kept l msg : preserves env_kept (logging_log l msg).
Proof. by intros w r w' [= _ <-]. Qed.

Lemma import_version_env_kept m : preserves env_kept (import_version m).
Proof.
  intros w r w'. unfold import_version. destruct (_ !! m); by intros [= _ <-].
Qed.

Lemma log_system_info_env_kept : preserves env_kept log_system_info.
Proof.
  unfold log_system_info, logging_info, logging_debug.
  repeat first [apply logging_log_env_kept | apply utcnow_env_kept
               | apply import_version_env_kept | py_step].
Qed.

Lemma init_entries_kept argv : preserves entries_kept (__init__ argv).
Proof.
  unfold __init__.
  repeat first
    [ by intros w r w' ->%parse_args_world
    | by intros w r w' ->%load_detectors_world
    | apply create_working_directories_entries_kept
    | apply initialize_logger_entries_kept
    | apply (preserves_impl _ _ _ fs_kept_entries_kept), log_system_info_fs_kept
    | py_step ].
Qed.

(** The script ends where [__init__] ends: with status 0 if it returned,
    else with the status of what it raised. *)
Lemma main_eq mapper_run w :
  main mapper_run w =
    match __init__ (sys_argv w) w with
    | (Return _, w') => (0%Z, w')
    | (Raise e, w') => (exit_status e, w')
    end.
Proof.
  unfold main. destruct (__init__ (sys_argv w) w) as [[app|e] w'] eqn:Hinit.
  - rewrite (bind_eq_Return _ _ _ _ _ Hinit).
    destruct (init_then_run mapper_run _ _ _ _ Hinit) as [_ Hrun].
    by rewrite (bind_eq_Return _ _ _ _ _ (Hrun w')).
  - by rewrite (bind_eq_Raise _ _ _ _ _ Hinit).
Qed.

(** X7: whatever the command line and however the script ends, every entry
    the file system had when it started is there when it ends, of the same
    kind: the script removes nothing and replaces no file by a directory or
    a directory by a file. *)
Theorem main_keeps_entries mapper_run w :
  entries_kept w (main mapper_run w).2.
Proof.
  rewrite main_eq.
  destruct (__init__ (sys_argv w) w) as [[app|e] w'] eqn:Hinit;
    by eapply init_entries_kept.
Qed.

Lemma main_keeps_entries_witness :
  fs (main sample_mapper_run (sample_world fastq_cl)).2 !! "genes.gff"
    = Some RegularFile.
Proof.
  apply (main_keeps_entries sample_mapper_run (sample_world fastq_cl)
           "genes.gff" RegularFile).
  by vm_compute.
Defined.

(** ** The exit status *)













(** ** The state [__init__] leaves *)

(** X9: on Linux with an interpreter whose [platform] module has no
    [linux_distribution], [__init__] never returns an instance, whatever the
    command line: if nothing fails before, [log_system_info] raises. *)
Theorem init_raises_without_linux_distribution argv w :
  system (platform w) = "Linux" → linux_distribution (platform w) = None →
  ∃ e w', __init__ argv w = (Raise e, w').
Proof.
  intros Hlinux Hdist.
  destruct (__init__ argv w) as [[app|e] w'] eqn:Hinit; [|eauto].
  apply init_returns in Hinit as (args & w1 & w2 & _ & Hwd & Hlog & Hinfo & _).
  apply create_working_directories_env_kept in Hwd as [Hwd _].
  apply initialize_logger_platform in Hlog.
  rewrite <-Hwd, <-Hlog in Hlinux, Hdist.
  destruct (module_version (platform w2) !! "eve") as [v|] eqn:Hv.
  - pose proof (log_system_info_with_version w2 v Hv) as Hcases.
    rewrite decide_True in Hcases by done.
    destruct Hcases as (? & ? & Hr). by rewrite Hr in Hinfo.
  - by rewrite (log_system_info_no_version w2 Hv) in Hinfo.
Qed.

Lemma init_raises_without_linux_distribution_witness :
  ∃ e w', __init__ fastq_cl (recent_python_world fastq_cl) = (Raise e, w').
Proof. by apply init_raises_without_linux_distribution. Defined.

(** [initialize_logger] in a process whose root logger has no handler. *)
Lemma initialize_logger_fresh wd w w' :
  log_file w = None → consoles w = [] →
  initialize_logger wd w = (Return (), w') →
  fs w' !! os_path.join wd ["eve.log"] = Some RegularFile ∧
  log_file w' = Some (os_path.join wd ["eve.log"]) ∧ consoles w' = [INFO].
Proof.
  intros Hlog Hcons. unfold initialize_logger.
  intros ([] & w1 & Hb & Hadd)%bind_Return.
  apply basicConfig_fresh in Hb as (_ & Hfs & Hfile & Hcons1 & _); [|done..].
  unfold addHandler in Hadd. injection Hadd as <-. simpl.
  by rewrite Hfs, lookup_insert_eq, Hcons1.
Qed.

(** [initialize_logger] in a process whose root logger has a handler. *)
Lemma initialize_logger_configured wd w :
  log_file w ≠ None ∨ consoles w ≠ [] →
  ∃ w', initialize_logger wd w = (Return (), w') ∧ fs w' = fs w ∧
        log_file w' = log_file w ∧ consoles w' = INFO :: consoles w.
Proof.
  intros Hconf. unfold initialize_logger.
  rewrite (bind_eq_Return _ _ _ _ _ (basicConfig_configured _ w Hconf)).
  by eexists.
Qed.

(** X10: in a process whose root logger has no handler yet, an [__init__]
    that returns leaves the directories [mapped] and [vcf] and the regular
    file [eve.log] in the working directory of the instance, with that file
    as the log file of the root logger and one console handler, of level
    [INFO]. *)
Theorem init_leaves_working_directory argv w app w' :
  log_file w = None → consoles w = [] →
  __init__ argv w = (Return app, w') →
  fs w' !! os_path.join (self_working_dir app) ["mapped"] = Some Directory ∧
  fs w' !! os_path.join (self_working_dir app) ["vcf"] = Some Directory ∧
  fs w' !! os_path.join (self_working_dir app) ["eve.log"] = Some RegularFile ∧
  log_file w' = Some (os_path.join (self_working_dir app) ["eve.log"]) ∧
  consoles w' = [INFO].
Proof.
  intros Hfile Hcons (args & w1 & w2 & _ & Hwd & Hlog & Hinfo & _)%init_returns.
  pose proof (create_working_directories_env_kept _ _ _ _ Hwd)
    as (_ & _ & Hfile1 & Hcons1).
  apply create_working_directories_subdirs in Hwd as [Hmapped Hvcf].
  pose proof (initialize_logger_entries_kept _ _ _ _ Hlog) as Hkept.
  apply initialize_logger_fresh in Hlog as (Heve & Hfile2 & Hcons2);
    [|congruence..].
  pose proof (log_system_info_env_kept _ _ _ Hinfo) as (_ & _ & Hfile3 & Hcons3).
  apply log_system_info_fs_kept in Hinfo. rewrite Hinfo, Hfile3, Hcons3.
  split_and!; try done; by apply Hkept.
Qed.

Lemma init_leaves_working_directory_witness :
  fs (__init__ fastq_cl (sample_world fastq_cl)).2
    !! "output/20140517134509/mapped" = Some Directory ∧
  fs (__init__ fastq_cl (sample_world fastq_cl)).2
    !! "output/20140517134509/vcf" = Some Directory ∧
  fs (__init__ fastq_cl (sample_world fastq_cl)).2
    !! "output/20140517134509/eve.log" = Some RegularFile ∧
  log_file (__init__ fastq_cl (sample_world fastq_cl)).2
    = Some "output/20140517134509/eve.log" ∧
  consoles (__init__ fastq_cl (sample_world fastq_cl)).2 = [INFO].
Proof.
  apply (init_leaves_working_directory fastq_cl (sample_world fastq_cl)
           fastq_app); by vm_compute.
Defined.

(** X11: in a process whose root logger already has a handler, an
    [__init__] that returns opens no log file of its own: the log file of
    the root logger stays what it was, no regular file is created, and the
    root logger gets one more console handler. *)
Theorem init_keeps_configured_logger argv w app w' :
  log_file w ≠ None ∨ consoles w ≠ [] →
  __init__ argv w = (Return app, w') →
  log_file w' = log_file w ∧ files_kept w w' ∧
  consoles w' = INFO :: consoles w.
Proof.
  intros Hconf (args & w1 & w2 & _ & Hwd & Hlog & Hinfo & _)%init_returns.
  pose proof (create_working_directories_env_kept _ _ _ _ Hwd)
    as (_ & _ & Hfile1 & Hcons1).
  apply create_working_directories_files_kept in Hwd.
  destruct (initialize_logger_configured (self_working_dir app) w1)
    as (w2' & Hlog' & Hfs2 & Hfile2 & Hcons2); [by rewrite Hfile1, Hcons1|].
  rewrite Hlog in Hlog'. injection Hlog' as <-.
  pose proof (log_system_info_env_kept _ _ _ Hinfo) as (_ & _ & Hfile3 & Hcons3).
  apply log_system_info_fs_kept in Hinfo.
  split_and!; [congruence| |congruence].
  intros p Hp. apply Hwd. by rewrite <-Hfs2, <-Hinfo.
Qed.

Lemma init_keeps_configured_logger_witness :
  log_file (__init__ fastq_cl (configured_world fastq_cl)).2
    = log_file (configured_world fastq_cl) ∧
  files_kept (configured_world fastq_cl)
    (__init__ fastq_cl (configured_world fastq_cl)).2 ∧
  consoles (__init__ fastq_cl (configured_world fastq_cl)).2
    = INFO :: consoles (configured_world fastq_cl).
Proof.
  apply (init_keeps_configured_logger fastq_cl (configured_world fastq_cl)
           fastq_app).
  - left. by vm_compute.
  - by vm_compute.
Defined.

(** * Properties of the Merge Engine of the specification *)

Import MergeEngine.

(** ** Grouping *)

Lemma supporters_add_support r sites alt l a :
  supporters (add_support r sites alt) l a =
    if decide (l = locus r ∧ a = alt)
    then Some ({[r]} ∪ support_set sites l a)
    else supporters sites l a.
Proof.
  unfold support_set, supporters, add_support.
  destruct (decide (l = locus r)) as [->|Hl].
  - rewrite lookup_insert_eq. simpl.
    destruct (decide (a = alt)) as [->|Ha].
    + rewrite lookup_insert_eq, decide_True by done.
      by destruct (sites !! locus r).
    + rewrite lookup_insert_ne, decide_False by naive_solver.
      by destruct (sites !! locus r).
  - rewrite lookup_insert_ne, decide_False by naive_solver. done.
Qed.

Lemma elem_of_support_add_support r sites alt l a r' :
  r' ∈ support_set (add_support r sites alt) l a ↔
  (r' = r ∧ l = locus r ∧ a = alt) ∨ r' ∈ support_set sites l a.
Proof.
  unfold support_set at 1. rewrite supporters_add_support.
  destruct (decide _) as [[-> ->]|Hne]; simpl.
  - rewrite elem_of_union, elem_of_singleton. naive_solver.
  - fold (support_set sites l a). naive_solver.
Qed.

Lemma elem_of_support_add_record sites r l a r' :
  r' ∈ support_set (add_record sites r) l a ↔
  (r' = r ∧ l = locus r ∧ a ∈ alternates r) ∨ r' ∈ support_set sites l a.
Proof.
  unfold add_record. revert sites.
  induction (alternates r) as [|alt alts IH]; intros sites; simpl.
  - rewrite elem_of_nil. naive_solver.
  - rewrite IH, elem_of_support_add_support, elem_of_cons. naive_solver.
Qed.

Lemma elem_of_support_foldl sites records l a r' :
  r' ∈ support_set (foldl add_record sites records) l a ↔
  (r' ∈ records ∧ l = locus r' ∧ a ∈ alternates r') ∨ r' ∈ support_set sites l a.
Proof.
  revert sites. induction records as [|r records IH]; intros sites; simpl.
  - rewrite elem_of_nil. naive_solver.
  - rewrite IH, elem_of_support_add_record, elem_of_cons. naive_solver.
Qed.

(** The records a grouping holds for a call are the successful Call Records
    that make that call. *)
Lemma elem_of_support_group results l a r :
  r ∈ support_set (group results) l a ↔
  r ∈ call_records results ∧ locus r = l ∧ a ∈ alternates r.
Proof.
  unfold group. rewrite elem_of_support_foldl.
  unfold support_set, supporters. rewrite lookup_empty. simpl.
  rewrite elem_of_empty. naive_solver.
Qed.

Lemma tidy_empty : tidy ∅.
Proof. intros l site. by rewrite lookup_empty. Qed.

Lemma tidy_add_support r sites alt : tidy sites → tidy (add_support r sites alt).
Proof.
  intros Htidy l site. unfold add_support.
  destruct (decide (l = locus r)) as [->|Hl].
  - rewrite lookup_insert_eq. intros [= <-]. split.
    + apply insert_non_empty.
    + intros a s. destruct (decide (a = alt)) as [->|Ha].
      * rewrite lookup_insert_eq. intros [= <-]. set_solver.
      * rewrite lookup_insert_ne by done.
        destruct (sites !! locus r) as [site|] eqn:Hsite; simpl; [|done].
        by apply (Htidy _ _ Hsite).
  - rewrite lookup_insert_ne by done. apply Htidy.
Qed.

Lemma tidy_add_record sites r : tidy sites → tidy (add_record sites r).
Proof.
  unfold add_record. revert sites.
  induction (alternates r) as [|alt alts IH]; intros sites Htidy; simpl; [done|].
  by apply IH, tidy_add_support.
Qed.

Lemma tidy_group results : tidy (group results).
Proof.
  unfold group. generalize (call_records results).
  assert (∀ records sites, tidy sites → tidy (foldl add_record sites records)) as H.
  { induction records as [|r records IH]; intros sites Htidy; simpl; [done|].
    by apply IH, tidy_add_record. }
  intros records. apply H, tidy_empty.
Qed.

(** In a tidy grouping a call is present exactly when some record
    supports it. *)
Lemma tidy_supporters sites l a :
  tidy sites →
  supporters sites l a =
    if decide (support_set sites l a = ∅) then None else Some (support_set sites l a).
Proof.
  intros Htidy. unfold support_set.
  destruct (supporters sites l a) as [s|] eqn:Hs; simpl; [|done].
  rewrite decide_False; [done|].
  unfold supporters in Hs. destruct (sites !! l) as [site|] eqn:Hsite; [|done].
  by apply (Htidy _ _ Hsite) in Hs.
Qed.

(** Tidy groupings that hold the same records for every call are equal. *)
Lemma tidy_eq sites1 sites2 :
  tidy sites1 → tidy sites2 →
  (∀ l a, support_set sites1 l a = support_set sites2 l a) →
  sites1 = sites2.
Proof.
  intros H1 H2 Heq.
  assert (∀ l a, supporters sites1 l a = supporters sites2 l a) as Hsup.
  { intros l a. by rewrite !tidy_supporters, Heq. }
  assert (∀ m1 m2, tidy m1 →
            (∀ l a, supporters m1 l a = supporters m2 l a) →
            ∀ l site, m1 !! l = Some site → ∃ site', m2 !! l = Some site') as Hdom.
  { intros m1 m2 Htidy Hs l site Hsite.
    destruct (Htidy _ _ Hsite) as [Hne Hin].
    apply map_choose in Hne as (a & s & Ha).
    specialize (Hs l a). unfold supporters in Hs. rewrite Hsite in Hs. simpl in Hs.
    rewrite Ha in Hs. destruct (m2 !! l); [eauto|done]. }
  apply map_eq. intros l.
  destruct (sites1 !! l) as [site1|] eqn:Hl1, (sites2 !! l) as [site2|] eqn:Hl2.
  - f_equal. apply map_eq. intros a. specialize (Hsup l a).
    unfold supporters in Hsup. by rewrite Hl1, Hl2 in Hsup.
  - destruct (Hdom sites1 sites2 H1 Hsup l site1 Hl1) as [? ?]. congruence.
  - destruct (Hdom sites2 sites1 H2 (λ l a, eq_sym (Hsup l a)) l site2 Hl2) as [? ?].
    congruence.
  - done.
Qed.

(** The grouping depends on the set of successful Call Records only. *)
Lemma group_ext results results' :
  (∀ r, r ∈ call_records results ↔ r ∈ call_records results') →
  group results = group results'.
Proof.
  intros Hrec. apply tidy_eq; [apply tidy_group..|].
  intros l a. apply set_eq. intros r. by rewrite !elem_of_support_group, Hrec.
Qed.

Lemma call_records_Permutation results results' :
  results ≡ₚ results' → call_records results ≡ₚ call_records results'.
Proof. unfold call_records. by intros ->. Qed.

(** ** The output of [merge] *)

Section MergeFacts.
Context (chromosome_le : string → string → Prop) `{!RelDecision chromosome_le}
        (score : CandidateSite → Qc * bool)
        (render : CandidateSite → Qc → string).

(** The sites of the output are the entries of the grouping. *)
Lemma elem_of_merge results s :
  s ∈ merge chromosome_le results ↔
  group results !! site_locus s = Some (support s).
Proof.
  unfold merge. rewrite merge_sort_Permutation, list_elem_of_fmap. split.
  - intros ([l site] & -> & Hin). by apply elem_of_map_to_list in Hin.
  - intros Hs. exists (site_locus s, support s). split; [by destruct s|].
    by apply elem_of_map_to_list.
Qed.

(** No locus has two sites in the output. *)
Lemma merge_sites_unique results s1 s2 :
  s1 ∈ merge chromosome_le results → s2 ∈ merge chromosome_le results →
  site_locus s1 = site_locus s2 → s1 = s2.
Proof.
  rewrite !elem_of_merge. intros H1 H2 Heq. rewrite Heq in H1.
  destruct s1, s2. simpl in *. congruence.
Qed.

Lemma NoDup_merge results : NoDup (merge chromosome_le results).
Proof.
  unfold merge. rewrite merge_sort_Permutation.
  apply NoDup_fmap_2_strong; [|apply NoDup_map_to_list].
  intros [l1 s1] [l2 s2] _ _ [= -> ->]. done.
Qed.

(** The calls of the output are the calls present in the grouping. *)
Lemma elem_of_output_calls results l a :
  (l, a) ∈ output_calls (merge chromosome_le results) ↔
  is_Some (supporters (group results) l a).
Proof.
  unfold output_calls, supporters. rewrite list_elem_of_bind. split.
  - intros (s & Hla & Hs). apply list_elem_of_fmap in Hla as ([a' x] & [= -> ->] & Hin).
    apply elem_of_map_to_list in Hin. apply elem_of_merge in Hs.
    rewrite Hs. simpl. by rewrite Hin.
  - destruct (group results !! l) as [site|] eqn:Hl; simpl; [|by intros [? ?]].
    intros [x Hx]. exists {| site_locus := l; support := site |}. split.
    + apply list_elem_of_fmap. exists (a, x). split; [done|].
      by apply elem_of_map_to_list.
    + by apply elem_of_merge.
Qed.

Lemma NoDup_output_calls results :
  NoDup (output_calls (merge chromosome_le results)).
Proof.
  unfold output_calls. apply NoDup_bind; [| |apply NoDup_merge].
  - intros s1 s2 [l a] Hs1 Hs2 H1 H2.
    apply list_elem_of_fmap in H1 as (? & [= -> _] & _).
    apply list_elem_of_fmap in H2 as (? & [= Heq _] & _).
    by eapply merge_sites_unique.
  - intros s _. apply NoDup_fmap_2_strong; [|apply NoDup_map_to_list].
    intros [a1 x1] [a2 x2] Hin1 Hin2 [= ->].
    apply elem_of_map_to_list in Hin1, Hin2. congruence.
Qed.

(** The detectors named for a call are those of the records the grouping
    holds for it. *)
Lemma elem_of_supporting_detectors results l a d :
  d ∈ supporting_detectors (merge chromosome_le results) l a ↔
  ∃ r, r ∈ support_set (group results) l a ∧ detector r = d.
Proof.
  unfold supporting_detectors, support_set, supporters.
  rewrite elem_of_union_list. split.
  - intros (X & HX & Hd). apply list_elem_of_fmap in HX as (s & -> & Hs).
    apply elem_of_merge in Hs.
    destruct (decide (site_locus s = l)) as [<-|]; [|by apply elem_of_empty in Hd].
    rewrite Hs. simpl. apply elem_of_map in Hd as (r & -> & Hr). eauto.
  - intros (r & Hr & <-).
    destruct (group results !! l) as [site|] eqn:Hl; simpl in Hr;
      [|by apply elem_of_empty in Hr].
    eexists. split.
    + apply list_elem_of_fmap. exists {| site_locus := l; support := site |}.
      split; [done|]. by apply elem_of_merge.
    + simpl. rewrite decide_True by done. apply elem_of_map. eauto.
Qed.

(** Under a total chromosome-name ordering the Candidate Sites come out in
    ascending order. *)
Lemma locus_le_total `{!Total chromosome_le} : Total (locus_le chromosome_le).
Proof.
  intros [[c1 p1] r1] [[c2 p2] r2]. unfold locus_le.
  destruct (decide (c1 = c2)) as [->|Hne].
  - rewrite decide_True by done.
    destruct (Pos.lt_total p1 p2) as [Hlt|[->|Hgt]].
    + by left; left.
    + destruct (total String.le r1 r2); [left|right]; by right.
    + by right; left.
  - rewrite decide_False by done.
    destruct (decide (c2 = c1)) as [->|]; [done|]. apply (total chromosome_le).
Qed.

Lemma merge_sorted `{!Total chromosome_le} results :
  Sorted (site_le chromosome_le) (merge chromosome_le results).
Proof.
  unfold merge. apply Sorted_merge_sort.
  intros s1 s2. apply locus_le_total.
Qed.

(** C2: for Detector Run Results without a failure, the output of the Merge
    Engine holds exactly the (chromosome, position, reference, alternate)
    tuples of the detectors' Call Records, each once, and names for each
    tuple exactly the detectors that have a Call Record with it.  (The same
    holds with failures among the results, a failure marker having no Call
    Record; the proof makes no use of their absence.) *)
Theorem merge_exact results :
  Forall is_success results →
  (∀ l a, (l, a) ∈ output_calls (merge chromosome_le results) ↔
          ∃ r, r ∈ call_records results ∧ locus r = l ∧ a ∈ alternates r)
  ∧ NoDup (output_calls (merge chromosome_le results))
  ∧ (∀ l a d, d ∈ supporting_detectors (merge chromosome_le results) l a ↔
              ∃ r, r ∈ call_records results ∧ locus r = l ∧
                   a ∈ alternates r ∧ detector r = d).
Proof.
  intros _. split; [|split].
  - intros l a. rewrite elem_of_output_calls.
    rewrite (tidy_supporters _ _ _ (tidy_group results)).
    destruct (decide (support_set (group results) l a = ∅)) as [Hempty|Hne].
    + split; [by intros [? ?]|]. intros (r & Hr).
      apply elem_of_support_group in Hr. rewrite Hempty in Hr.
      by apply elem_of_empty in Hr.
    + split; [|by eauto]. intros _.
      apply set_choose_L in Hne as [r Hr]. exists r.
      by apply elem_of_support_group.
  - apply NoDup_output_calls.
  - intros l a d. rewrite elem_of_supporting_detectors. split.
    + intros (r & (? & ? & ?)%elem_of_support_group & ?). eauto.
    + intros (r & ? & ? & ? & ?). exists r. by rewrite elem_of_support_group.
Qed.

(** C5: the Merge Engine produces the same Candidate Sites in the same
    order for every permutation of the Detector Run Results, and the final
    output is the same string. *)
Theorem merge_permutation results results' :
  results ≡ₚ results' →
  merge chromosome_le results = merge chromosome_le results'
  ∧ final_output chromosome_le score render results =
    final_output chromosome_le score render results'.
Proof.
  intros Hperm.
  assert (group results = group results') as Hgroup.
  { apply group_ext. intros r. by rewrite (call_records_Permutation _ _ Hperm). }
  unfold final_output, merge. by rewrite Hgroup.
Qed.

End MergeFacts.

(** The ordering [natural_le] is total: the sites come out ascending in it. *)
Lemma natural_le_total : Total natural_le.
Proof.
  intros c1 c2. unfold natural_le.
  destruct (numeric_name c1) as [n1|], (numeric_name c2) as [n2|]; try tauto.
  - destruct (N.lt_total n1 n2) as [Hlt|[->|Hgt]].
    + by left; left.
    + destruct (total String.le c1 c2); [left|right]; by right.
    + by right; left.
  - apply (total String.le).
Qed.

Lemma merge_natural_sorted results :
  Sorted (site_le natural_le) (merge natural_le results).
Proof. apply merge_sorted, natural_le_total. Qed.

Lemma merge_exact_witness :
  NoDup (output_calls (merge natural_le [result_A; result_B]))
  ∧ ∀ d, d ∈ supporting_detectors (merge natural_le [result_A; result_B])
               ("chr1", 100%positive, "A") "T" ↔
         ∃ r, r ∈ call_records [result_A; result_B] ∧
              locus r = ("chr1", 100%positive, "A") ∧
              "T" ∈ alternates r ∧ detector r = d.
Proof.
  destruct (merge_exact natural_le [result_A; result_B]) as (_ & Hnodup & Hdet).
  - by repeat constructor.
  - split; [exact Hnodup|]. intros d. apply Hdet.
Defined.

Lemma merge_permutation_witness :
  merge natural_le [result_A; result_B] = merge natural_le [result_B; result_A]
  ∧ final_output natural_le example_score example_render [result_A; result_B] =
    final_output natural_le example_score example_render [result_B; result_A].
Proof. apply merge_permutation, perm_swap. Defined.

(** The example of section 8 of the specification. *)
Example merge_spec_example :
  output_calls (merge natural_le [result_A; result_B]) =
    [("chr1", 100%positive, "A", "T"); ("chr1", 200%positive, "G", "C")]
  ∧ elements (supporting_detectors (merge natural_le [result_A; result_B])
                ("chr1", 100%positive, "A") "T") = ["A"; "B"]
  ∧ elements (supporting_detectors (merge natural_le [result_A; result_B])
                ("chr1", 200%positive, "G") "C") = ["B"]
  ∧ final_output natural_le example_score example_render [result_A; result_B] =
      "chr1:100 A>T" +:+ String "010"%char "".
Proof. by vm_compute. Qed.
